(** * Quick Fit memory management: the allocator of [MIniProject.py]

    A shallow embedding of class [QuickFit] (its constructor, [allocate],
    [deallocate] and [get_memory_state]) and the properties of its
    size-class pools and process bindings.

    Python dictionaries keep their keys in insertion order and
    [get_memory_state] iterates over them, so a dictionary is modelled by
    the list of its items in that order.  The pools are lists of block
    names mutated in place ([pop(0)], [append]).  Where the lists held by
    the dictionary are distinct objects (the literal [initial_blocks] of
    the GUI, and the fresh list of [deallocate]) a dictionary of list
    values describes them, and [QuickFit] below is that allocator.
    Module [Objects] is the allocator with the list objects themselves,
    for callers that put one list under several sizes; on separate lists
    the two agree ([view_run]). *)

From Stdlib Require Import List ZArith String Ascii Bool Lia Permutation.
From Stdlib Require Import DecimalString.
Import ListNotations.

Local Open Scope string_scope.
Local Open Scope Z_scope.

(** ** Insertion-ordered dictionaries *)

Section Dict.

Context {K V : Type}.
Variable K_eq_dec : forall x y : K, {x = y} + {x <> y}.

(** The items of a dictionary, oldest key first. *)
Definition dict := list (K * V).

Definition keys (d : dict) : list K := map fst d.

(** A Python dictionary holds every key once. *)
Definition dict_wf (d : dict) : Prop := NoDup (keys d).

(** [d.get(k)], and [d[k]] where the key is known to be present. *)
Fixpoint dict_get (k : K) (d : dict) : option V :=
  match d with
  | [] => None
  | (k', v) :: d' => if K_eq_dec k k' then Some v else dict_get k d'
  end.

(** [k in d] *)
Definition dict_contains (k : K) (d : dict) : bool :=
  match dict_get k d with Some _ => true | None => false end.

(** [d[k] = v]: the value of a present key is replaced where it stands,
    a new key goes to the end. *)
Fixpoint dict_setitem (k : K) (v : V) (d : dict) : dict :=
  match d with
  | [] => [(k, v)]
  | (k', v') :: d' =>
      if K_eq_dec k k' then (k, v) :: d'
      else (k', v') :: dict_setitem k v d'
  end.

(** [del d[k]] *)
Fixpoint dict_delitem (k : K) (d : dict) : dict :=
  match d with
  | [] => []
  | (k', v') :: d' =>
      if K_eq_dec k k' then dict_delitem k d'
      else (k', v') :: dict_delitem k d'
  end.

End Dict.

Arguments dict : clear implicits.

(** ** Text of the messages *)

(** [str(n)] of a Python integer. *)
Definition str_int (n : Z) : string := NilZero.string_of_int (Z.to_int n).

Definition newline : string := String "010"%char EmptyString.

(** [needle] occurs in [hay]. *)
Fixpoint mentions (needle hay : string) : bool :=
  match hay with
  | EmptyString => prefix needle hay
  | String _ hay' => prefix needle hay || mentions needle hay'
  end.

(** ** The allocator *)

(** The dictionary [{'block': ..., 'size': ...}] of one allocation. *)
Record allocation := { block : string; size : Z }.

Record QuickFit := {
  memory_blocks : dict Z (list string);
  allocated_processes : dict string allocation
}.

(** [QuickFit.__init__] *)
Definition init (seed : dict Z (list string)) : QuickFit :=
  {| memory_blocks := seed; allocated_processes := [] |}.

Definition allocate_success (process_id allocated_block : string) (sz : Z) : string :=
  "Process " ++ process_id ++ " allocated to " ++ allocated_block
    ++ " (" ++ str_int sz ++ " KB).".

Definition allocate_failure (process_id : string) (sz : Z) : string :=
  "No exact block available for Process " ++ process_id
    ++ " requiring " ++ str_int sz ++ " KB.".

(** [QuickFit.allocate]: the returned tuple and the allocator afterwards. *)
Definition allocate (process_id : string) (sz : Z) (self : QuickFit)
  : (bool * string) * QuickFit :=
  match dict_get Z.eq_dec sz (memory_blocks self) with
  | Some (allocated_block :: rest) =>
      ((true, allocate_success process_id allocated_block sz),
       {| memory_blocks := dict_setitem Z.eq_dec sz rest (memory_blocks self);
          allocated_processes :=
            dict_setitem string_dec process_id
              {| block := allocated_block; size := sz |}
              (allocated_processes self) |})
  | _ => ((false, allocate_failure process_id sz), self)
  end.

Definition deallocate_success (block_name : string) (block_size : Z) : string :=
  "Block " ++ block_name ++ " (" ++ str_int block_size ++ " KB) deallocated.".

Definition deallocate_failure (process_id : string) : string :=
  "No allocation found for Process " ++ process_id ++ ".".

(** [QuickFit.deallocate] *)
Definition deallocate (process_id : string) (self : QuickFit)
  : (bool * string) * QuickFit :=
  match dict_get string_dec process_id (allocated_processes self) with
  | None => ((false, deallocate_failure process_id), self)
  | Some allocation =>
      let block_size := size allocation in
      let block_name := block allocation in
      let memory_blocks' :=
        match dict_get Z.eq_dec block_size (memory_blocks self) with
        | Some blocks =>
            dict_setitem Z.eq_dec block_size (blocks ++ [block_name])%list
              (memory_blocks self)
        | None =>
            dict_setitem Z.eq_dec block_size [block_name] (memory_blocks self)
        end in
      ((true, deallocate_success block_name block_size),
       {| memory_blocks := memory_blocks';
          allocated_processes :=
            dict_delitem string_dec process_id (allocated_processes self) |})
  end.

(** ** Reporting the state *)

Section Report.

(** [repr(s)] of a Python string, the quoting that [str] of a list applies
    to its elements. *)
Variable repr_str : string -> string.

(** [str(blocks)] of a list of strings. *)
Definition str_list (blocks : list string) : string :=
  "[" ++ String.concat ", " (map repr_str blocks) ++ "]".

Definition blocks_line (item : Z * list string) : string :=
  str_int (fst item) ++ " KB Blocks: " ++ str_list (snd item) ++ newline.

Definition process_line (item : string * allocation) : string :=
  "Process " ++ fst item ++ ": " ++ block (snd item)
    ++ " (" ++ str_int (size (snd item)) ++ " KB)" ++ newline.

(** [QuickFit.get_memory_state]: the text and the allocator afterwards. *)
Definition get_memory_state (self : QuickFit) : string * QuickFit :=
  let state := "Available Memory Blocks:" ++ newline in
  let state :=
    fold_left (fun state item => state ++ blocks_line item)
      (memory_blocks self) state in
  let state := state ++ newline ++ "Allocated Processes:" ++ newline in
  let state :=
    fold_left (fun state item => state ++ process_line item)
      (allocated_processes self) state in
  (state, self).

End Report.

(** ** Sequences of calls *)

Inductive call :=
| Allocate (process_id : string) (sz : Z)
| Deallocate (process_id : string).

Definition step (c : call) (self : QuickFit) : (bool * string) * QuickFit :=
  match c with
  | Allocate process_id sz => allocate process_id sz self
  | Deallocate process_id => deallocate process_id self
  end.

Fixpoint run (calls : list call) (self : QuickFit) : QuickFit :=
  match calls with
  | [] => self
  | c :: calls' => run calls' (snd (step c self))
  end.

(** ** Where the blocks are *)

(** The names in the free sequences, class after class. *)
Definition free_blocks (self : QuickFit) : list string :=
  List.concat (map snd (memory_blocks self)).

(** The names held by the process bindings. *)
Definition bound_blocks (self : QuickFit) : list string :=
  map (fun item => block (snd item)) (allocated_processes self).

Definition all_blocks (self : QuickFit) : list string :=
  (free_blocks self ++ bound_blocks self)%list.

(** The number of places, free or bound, where a block name stands. *)
Definition free_occurrences (b : string) (self : QuickFit) : nat :=
  count_occ string_dec (free_blocks self) b.

Definition bound_occurrences (b : string) (self : QuickFit) : nat :=
  count_occ string_dec (bound_blocks self) b.

(** The names a seed introduces. *)
Definition seed_blocks (seed : dict Z (list string)) : list string :=
  List.concat (map snd seed).

(** A call that succeeds in allocating for a process that holds a block. *)
Definition rebinds (c : call) (self : QuickFit) : bool :=
  match c with
  | Allocate process_id sz =>
      dict_contains string_dec process_id (allocated_processes self)
      && fst (fst (allocate process_id sz self))
  | Deallocate _ => false
  end.

Fixpoint no_rebind (calls : list call) (self : QuickFit) : bool :=
  match calls with
  | [] => true
  | c :: calls' => negb (rebinds c self) && no_rebind calls' (snd (step c self))
  end.

(** The size class a call adds to [memory_blocks]: the one of a binding
    released while its class is not among the keys. *)
Definition created_class (c : call) (self : QuickFit) : list Z :=
  match c with
  | Allocate _ _ => []
  | Deallocate process_id =>
      match dict_get string_dec process_id (allocated_processes self) with
      | Some a =>
          if dict_contains Z.eq_dec (size a) (memory_blocks self) then []
          else [size a]
      | None => []
      end
  end.

(** The classes added along a sequence of calls, in the order of the calls. *)
Fixpoint created_along (calls : list call) (self : QuickFit) : list Z :=
  match calls with
  | [] => []
  | c :: calls' =>
      (created_class c self ++ created_along calls' (snd (step c self)))%list
  end.

(** The process ids of the bindings after a call, from those before it. *)
Definition bound_after (c : call) (self : QuickFit) : list string :=
  let bound := keys (allocated_processes self) in
  match c with
  | Allocate process_id sz =>
      if fst (fst (allocate process_id sz self)) then
        if dict_contains string_dec process_id (allocated_processes self)
        then bound
        else (bound ++ [process_id])%list
      else bound
  | Deallocate process_id => remove string_dec process_id bound
  end.

(** The text of consecutive lines. *)
Definition lines (l : list string) : string :=
  fold_right append EmptyString l.

(** Every binding is for a size class that is a key of [memory_blocks]. *)
Definition sizes_known (self : QuickFit) : Prop :=
  Forall (fun item => In (size (snd item)) (keys (memory_blocks self)))
    (allocated_processes self).

(** The seed of the GUI, [initial_blocks]. *)
Definition initial_blocks : dict Z (list string) :=
  [ (50, ["Block1"; "Block2"]);
    (100, ["Block3"; "Block4"]);
    (200, ["Block5"]) ].

(** ** What the calls return, and what is lost *)

(** The tuples returned along a sequence of calls. *)
Fixpoint outputs (calls : list call) (self : QuickFit) : list (bool * string) :=
  match calls with
  | [] => []
  | c :: calls' => fst (step c self) :: outputs calls' (snd (step c self))
  end.

(** One request at size [sz] for each process of [ps], in order. *)
Definition allocate_all (ps : list string) (sz : Z) : list call :=
  map (fun p => Allocate p sz) ps.

(** The number of calls that allocate for a process holding a block. *)
Fixpoint rebind_count (calls : list call) (self : QuickFit) : nat :=
  match calls with
  | [] => 0%nat
  | c :: calls' =>
      ((if rebinds c self then 1 else 0)
       + rebind_count calls' (snd (step c self)))%nat
  end.

(** The block names a seed gives to a size class. *)
Definition seed_pool (seed : dict Z (list string)) (sz : Z) : list string :=
  match dict_get Z.eq_dec sz seed with
  | Some blocks => blocks
  | None => []
  end.

(** Every free block and every bound block is one that the seed gave to
    the size class it stands in. *)
Definition class_kept (seed : dict Z (list string)) (self : QuickFit) : Prop :=
  (forall sz blocks,
     dict_get Z.eq_dec sz (memory_blocks self) = Some blocks ->
     incl blocks (seed_pool seed sz)) /\
  (forall p a,
     dict_get string_dec p (allocated_processes self) = Some a ->
     In (block a) (seed_pool seed (size a))).

(** ** The window: [QuickFitGUI] *)

(** A message box. *)
Inductive dialog :=
| showerror (title message : string)
| showinfo (title message : string)
| showwarning (title message : string).

(** The allocator of the window and the text of its widgets: the two
    entries and the state display. *)
Record QuickFitGUI := {
  quick_fit : QuickFit;
  process_id_entry : string;
  size_entry : string;
  state_text : string
}.

(** [not s] for a string. *)
Definition is_empty (s : string) : bool :=
  match s with EmptyString => true | String _ _ => false end.

Section Window.

Variable repr_str : string -> string.

(** [int(s)] of a string; [None] stands for [ValueError]. *)
Variable int_of_str : string -> option Z.

(** [QuickFitGUI.refresh_state]: the display is emptied and filled with
    the report. *)
Definition refresh_state (gui : QuickFitGUI) : QuickFitGUI :=
  let (state, quick_fit') := get_memory_state repr_str (quick_fit gui) in
  {| quick_fit := quick_fit';
     process_id_entry := process_id_entry gui;
     size_entry := size_entry gui;
     state_text := state |}.

(** The display shows the report of the allocator as it is. *)
Definition up_to_date (gui : QuickFitGUI) : Prop :=
  state_text gui = fst (get_memory_state repr_str (quick_fit gui)).

(** [QuickFitGUI.__init__] with [create_widgets]: the allocator on
    [initial_blocks], empty entries, and the first refresh. *)
Definition gui_init : QuickFitGUI :=
  refresh_state
    {| quick_fit := init initial_blocks;
       process_id_entry := EmptyString;
       size_entry := EmptyString;
       state_text := EmptyString |}.

(** [QuickFitGUI.allocate_memory]: the message boxes shown and the window
    afterwards. *)
Definition allocate_memory (gui : QuickFitGUI) : list dialog * QuickFitGUI :=
  let process_id := process_id_entry gui in
  let size_str := size_entry gui in
  if is_empty process_id || is_empty size_str then
    ([showerror "Error" "Please enter both Process ID and Memory Size"], gui)
  else
    match int_of_str size_str with
    | None => ([showerror "Error" "Memory Size must be a number"], gui)
    | Some sz =>
        let '((success, message), quick_fit') :=
          allocate process_id sz (quick_fit gui) in
        ([if success then showinfo "Allocation Success" message
          else showwarning "Allocation Failed" message],
         refresh_state
           {| quick_fit := quick_fit';
              process_id_entry := EmptyString;
              size_entry := EmptyString;
              state_text := state_text gui |})
    end.

(** [QuickFitGUI.deallocate_memory]; [answer] is what [askstring]
    returns, [None] when the dialog is cancelled. *)
Definition deallocate_memory (answer : option string) (gui : QuickFitGUI)
  : list dialog * QuickFitGUI :=
  match answer with
  | None => ([], gui)
  | Some process_id =>
      if is_empty process_id then ([], gui)
      else
        let '((success, message), quick_fit') :=
          deallocate process_id (quick_fit gui) in
        ([if success then showinfo "Deallocation Success" message
          else showwarning "Deallocation Failed" message],
         refresh_state
           {| quick_fit := quick_fit';
              process_id_entry := process_id_entry gui;
              size_entry := size_entry gui;
              state_text := state_text gui |})
  end.

(** What the user does: fill an entry, or press one of the buttons. *)
Inductive event :=
| EnterProcessId (text : string)
| EnterSize (text : string)
| AllocateButton
| DeallocateButton (answer : option string)
| RefreshButton.

Definition handle (e : event) (gui : QuickFitGUI) : list dialog * QuickFitGUI :=
  match e with
  | EnterProcessId text =>
      ([], {| quick_fit := quick_fit gui;
              process_id_entry := text;
              size_entry := size_entry gui;
              state_text := state_text gui |})
  | EnterSize text =>
      ([], {| quick_fit := quick_fit gui;
              process_id_entry := process_id_entry gui;
              size_entry := text;
              state_text := state_text gui |})
  | AllocateButton => allocate_memory gui
  | DeallocateButton answer => deallocate_memory answer gui
  | RefreshButton => ([], refresh_state gui)
  end.

Fixpoint session (events : list event) (gui : QuickFitGUI) : QuickFitGUI :=
  match events with
  | [] => gui
  | e :: events' => session events' (snd (handle e gui))
  end.

(** The calls that the handlers of a session pass to the allocator. *)
Definition passed_call (e : event) (gui : QuickFitGUI) : list call :=
  match e with
  | AllocateButton =>
      if is_empty (process_id_entry gui) || is_empty (size_entry gui) then []
      else match int_of_str (size_entry gui) with
           | Some sz => [Allocate (process_id_entry gui) sz]
           | None => []
           end
  | DeallocateButton (Some process_id) =>
      if is_empty process_id then [] else [Deallocate process_id]
  | _ => []
  end.

Fixpoint passed_calls (events : list event) (gui : QuickFitGUI) : list call :=
  match events with
  | [] => []
  | e :: events' =>
      (passed_call e gui ++ passed_calls events' (snd (handle e gui)))%list
  end.

End Window.

(** A reader of decimal numerals, standing for [int] in the examples. *)
Definition read_decimal (s : string) : option Z :=
  option_map Z.of_int (NilZero.int_of_string s).

(** ** The order in which the bindings were made *)

(** The bound process ids, oldest binding first, where every successful
    [allocate] makes a binding (in the place of the one the process had)
    and [deallocate] ends it. *)
Fixpoint creation_order (calls : list call) (self : QuickFit)
         (order : list string) : list string :=
  match calls with
  | [] => order
  | c :: calls' =>
      creation_order calls' (snd (step c self))
        match c with
        | Allocate process_id sz =>
            if fst (fst (allocate process_id sz self))
            then (remove string_dec process_id order ++ [process_id])%list
            else order
        | Deallocate process_id => remove string_dec process_id order
        end
  end.

(** [repr] of a string that has no quote, no backslash and nothing to
    escape, such as the block names of the GUI. *)
Definition quote_plain (s : string) : string := "'" ++ s ++ "'".

(** ** The allocator with its list objects *)

(** [pop(0)] and [append] change a list object, under every key that
    holds it.  Here the free lists are objects in a heap and
    [memory_blocks] maps a size to a reference. *)
Module Objects.

Definition heap := list (list string).

(** The list a reference stands for. *)
Definition deref (h : heap) (r : nat) : list string := nth r h [].

(** The heap after the object at [r] has changed to [blocks]. *)
Fixpoint assign (h : heap) (r : nat) (blocks : list string) : heap :=
  match h, r with
  | [], _ => []
  | _ :: h', O => blocks :: h'
  | x :: h', S r' => x :: assign h' r' blocks
  end.

Record QuickFit := {
  objects : heap;
  memory_blocks : dict Z nat;
  allocated_processes : dict string allocation
}.

(** [QuickFit.__init__] on a dictionary of list objects. *)
Definition init (objects : heap) (memory_blocks : dict Z nat) : QuickFit :=
  {| objects := objects;
     memory_blocks := memory_blocks;
     allocated_processes := [] |}.

(** The free sequence of a size class, if the size is a key. *)
Definition pool (sz : Z) (self : QuickFit) : option (list string) :=
  option_map (deref (objects self)) (dict_get Z.eq_dec sz (memory_blocks self)).

(** [QuickFit.allocate] *)
Definition allocate (process_id : string) (sz : Z) (self : QuickFit)
  : (bool * string) * QuickFit :=
  match dict_get Z.eq_dec sz (memory_blocks self) with
  | Some r =>
      match deref (objects self) r with
      | allocated_block :: rest =>
          ((true, allocate_success process_id allocated_block sz),
           {| objects := assign (objects self) r rest;
              memory_blocks := memory_blocks self;
              allocated_processes :=
                dict_setitem string_dec process_id
                  {| block := allocated_block; size := sz |}
                  (allocated_processes self) |})
      | [] => ((false, allocate_failure process_id sz), self)
      end
  | None => ((false, allocate_failure process_id sz), self)
  end.

(** [QuickFit.deallocate]; the list of a new class is a new object. *)
Definition deallocate (process_id : string) (self : QuickFit)
  : (bool * string) * QuickFit :=
  match dict_get string_dec process_id (allocated_processes self) with
  | None => ((false, deallocate_failure process_id), self)
  | Some allocation =>
      let block_size := size allocation in
      let block_name := block allocation in
      ((true, deallocate_success block_name block_size),
       match dict_get Z.eq_dec block_size (memory_blocks self) with
       | Some r =>
           {| objects :=
                assign (objects self) r
                  (deref (objects self) r ++ [block_name])%list;
              memory_blocks := memory_blocks self;
              allocated_processes :=
                dict_delitem string_dec process_id (allocated_processes self) |}
       | None =>
           {| objects := (objects self ++ [[block_name]])%list;
              memory_blocks :=
                dict_setitem Z.eq_dec block_size (List.length (objects self))
                  (memory_blocks self);
              allocated_processes :=
                dict_delitem string_dec process_id (allocated_processes self) |}
       end)
  end.

Definition step (c : call) (self : QuickFit) : (bool * string) * QuickFit :=
  match c with
  | Allocate process_id sz => allocate process_id sz self
  | Deallocate process_id => deallocate process_id self
  end.

Fixpoint run (calls : list call) (self : QuickFit) : QuickFit :=
  match calls with
  | [] => self
  | c :: calls' => run calls' (snd (step c self))
  end.

(** Every reference of [memory_blocks] is to an object of the heap. *)
Definition valid (self : QuickFit) : Prop :=
  Forall (fun item => (snd item < List.length (objects self))%nat)
    (memory_blocks self).

(** No list object is held under two sizes. *)
Definition separate (self : QuickFit) : Prop :=
  NoDup (map snd (memory_blocks self)).

End Objects.

(** The dictionary of list values that the objects spell out. *)
Definition view (self : Objects.QuickFit) : QuickFit :=
  {| memory_blocks :=
       map (fun item => (fst item, Objects.deref (Objects.objects self) (snd item)))
         (Objects.memory_blocks self);
     allocated_processes := Objects.allocated_processes self |}.

(** * Properties *)

(** ** Dictionaries *)

Section DictFacts.

Context {K V : Type}.
Variable K_eq_dec : forall x y : K, {x = y} + {x <> y}.

Local Abbreviation get := (dict_get K_eq_dec).
Local Abbreviation setitem := (dict_setitem K_eq_dec).
Local Abbreviation delitem := (dict_delitem K_eq_dec).

Lemma dict_get_setitem_eq (k : K) (v : V) (d : dict K V) :
  get k (setitem k v d) = Some v.
Proof.
  induction d as [|[k' v'] d IH]; simpl.
  - destruct (K_eq_dec k k); congruence.
  - destruct (K_eq_dec k k') as [E|N]; simpl.
    + destruct (K_eq_dec k k); congruence.
    + destruct (K_eq_dec k k'); congruence.
Qed.

Lemma dict_get_setitem_ne (k k' : K) (v : V) (d : dict K V) :
  k <> k' -> get k' (setitem k v d) = get k' d.
Proof.
  intros N. induction d as [|[k0 v0] d IH]; simpl.
  - destruct (K_eq_dec k' k); congruence.
  - destruct (K_eq_dec k k0) as [E|N0]; simpl.
    + subst k0. destruct (K_eq_dec k' k); congruence.
    + destruct (K_eq_dec k' k0); congruence.
Qed.

Lemma dict_get_delitem_eq (k : K) (d : dict K V) :
  get k (delitem k d) = None.
Proof.
  induction d as [|[k' v'] d IH]; simpl; trivial.
  destruct (K_eq_dec k k') as [E|N]; simpl; trivial.
  destruct (K_eq_dec k k'); congruence.
Qed.

Lemma dict_get_delitem_ne (k k' : K) (d : dict K V) :
  k <> k' -> get k' (delitem k d) = get k' d.
Proof.
  intros N. induction d as [|[k0 v0] d IH]; simpl; trivial.
  destruct (K_eq_dec k k0) as [E|N0]; simpl.
  - subst k0. destruct (K_eq_dec k' k); congruence.
  - destruct (K_eq_dec k' k0); congruence.
Qed.

Lemma dict_get_None_keys (k : K) (d : dict K V) :
  get k d = None <-> ~ In k (keys d).
Proof.
  induction d as [|[k' v'] d IH]; simpl.
  - tauto.
  - destruct (K_eq_dec k k') as [E|N].
    + split; [discriminate | intros H; exfalso; apply H; auto].
    + rewrite IH. split; [intros H [E|I]; congruence | tauto].
Qed.

Lemma dict_get_Some_In (k : K) (v : V) (d : dict K V) :
  get k d = Some v -> In (k, v) d.
Proof.
  induction d as [|[k' v'] d IH]; simpl; [discriminate|].
  destruct (K_eq_dec k k') as [E|N]; intros H.
  - left. congruence.
  - right. auto.
Qed.

(** A present key splits the items around its first (and, in a
    dictionary, only) entry; assignment rewrites that entry in place. *)
Lemma dict_get_split (k : K) (v : V) (d : dict K V) :
  get k d = Some v ->
  exists d1 d2,
    d = (d1 ++ (k, v) :: d2)%list /\ ~ In k (keys d1) /\
    forall v', setitem k v' d = (d1 ++ (k, v') :: d2)%list.
Proof.
  induction d as [|[k' v'] d IH]; simpl; [discriminate|].
  destruct (K_eq_dec k k') as [E|N]; intros H.
  - subst k'. injection H as ->. exists [], d. simpl. repeat split; tauto.
  - destruct (IH H) as (d1 & d2 & E & NI & S).
    exists ((k', v') :: d1), d2. simpl. repeat split.
    + now rewrite E.
    + intros [E'|I]; [congruence | tauto].
    + intros w. now rewrite S.
Qed.

(** Assignment to an absent key adds the item at the end. *)
Lemma dict_setitem_absent (k : K) (v : V) (d : dict K V) :
  get k d = None -> setitem k v d = (d ++ [(k, v)])%list.
Proof.
  induction d as [|[k' v'] d IH]; simpl; trivial.
  destruct (K_eq_dec k k'); [discriminate|]. intros H. now rewrite IH.
Qed.

Lemma keys_setitem_present (k : K) (v0 v : V) (d : dict K V) :
  get k d = Some v0 -> keys (setitem k v d) = keys d.
Proof.
  intros H. destruct (dict_get_split _ _ _ H) as (d1 & d2 & E & _ & S).
  rewrite S, E. unfold keys. now rewrite !map_app.
Qed.

Lemma keys_setitem_absent (k : K) (v : V) (d : dict K V) :
  get k d = None -> keys (setitem k v d) = (keys d ++ [k])%list.
Proof.
  intros H. rewrite dict_setitem_absent by assumption.
  unfold keys. now rewrite map_app.
Qed.

Lemma keys_delitem (k : K) (d : dict K V) :
  keys (delitem k d) = remove K_eq_dec k (keys d).
Proof.
  induction d as [|[k' v'] d IH]; simpl; trivial.
  destruct (K_eq_dec k k'); simpl; now rewrite IH.
Qed.

Lemma dict_delitem_absent (k : K) (d : dict K V) :
  ~ In k (keys d) -> delitem k d = d.
Proof.
  induction d as [|[k' v'] d IH]; simpl; trivial.
  intros H. destruct (K_eq_dec k k') as [E|N]; [exfalso; apply H; auto|].
  rewrite IH; tauto.
Qed.

(** Deleting the key of a dictionary takes out its one entry. *)
Lemma dict_delitem_split (k : K) (v : V) (d : dict K V) :
  dict_wf d -> get k d = Some v ->
  exists d1 d2, d = (d1 ++ (k, v) :: d2)%list /\ delitem k d = (d1 ++ d2)%list.
Proof.
  unfold dict_wf.
  induction d as [|[k' v'] d IH]; simpl; [discriminate|].
  intros W H. inversion W as [|? ? NI W']; subst.
  destruct (K_eq_dec k k') as [E|N].
  - subst k'. injection H as ->. exists [], d. simpl.
    split; [reflexivity | now apply dict_delitem_absent].
  - destruct (IH W' H) as (d1 & d2 & E & D).
    exists ((k', v') :: d1), d2. simpl. now rewrite E at 1; rewrite D.
Qed.

Lemma dict_wf_setitem (k : K) (v : V) (d : dict K V) :
  dict_wf d -> dict_wf (setitem k v d).
Proof.
  unfold dict_wf. intros W.
  destruct (get k d) as [v0|] eqn:G.
  - now rewrite (keys_setitem_present _ _ _ _ G).
  - rewrite keys_setitem_absent by assumption.
    apply NoDup_app; [assumption | repeat constructor; simpl; tauto |].
    intros x I [E|[]]. subst x. now apply dict_get_None_keys in G.
Qed.

Lemma dict_wf_delitem (k : K) (d : dict K V) :
  dict_wf d -> dict_wf (delitem k d).
Proof.
  unfold dict_wf. intros W. rewrite keys_delitem.
  induction (keys d) as [|k' l IH]; simpl; trivial.
  inversion W as [|? ? NI W']; subst.
  destruct (K_eq_dec k k'); auto.
  constructor; auto. intros I. apply in_remove in I. tauto.
Qed.

End DictFacts.

(** ** Messages *)

Lemma prefix_append (x post : string) : prefix x (x ++ post) = true.
Proof.
  induction x as [|a x IH]; simpl; [now destruct post|].
  destruct (ascii_dec a a); congruence.
Qed.

Lemma mentions_here (x post : string) : mentions x (x ++ post) = true.
Proof.
  pose proof (prefix_append x post) as P.
  destruct (x ++ post); cbn [mentions]; rewrite P; reflexivity.
Qed.

Lemma mentions_append_r (x pre t : string) :
  mentions x t = true -> mentions x (pre ++ t) = true.
Proof.
  intros H. induction pre as [|a pre IH]; cbn [append mentions]; trivial.
  rewrite IH. apply orb_true_r.
Qed.

Ltac mentioned :=
  repeat first [ apply mentions_here | apply mentions_append_r ].

Lemma allocate_success_mentions (p b : string) (sz : Z) :
  mentions p (allocate_success p b sz) = true /\
  mentions b (allocate_success p b sz) = true /\
  mentions (str_int sz) (allocate_success p b sz) = true.
Proof. unfold allocate_success. repeat split; mentioned. Qed.

Lemma allocate_failure_mentions (p : string) (sz : Z) :
  mentions p (allocate_failure p sz) = true /\
  mentions (str_int sz) (allocate_failure p sz) = true.
Proof. unfold allocate_failure. repeat split; mentioned. Qed.

Lemma deallocate_success_mentions (b : string) (sz : Z) :
  mentions b (deallocate_success b sz) = true /\
  mentions (str_int sz) (deallocate_success b sz) = true.
Proof. unfold deallocate_success. repeat split; mentioned. Qed.

Lemma deallocate_failure_mentions (p : string) :
  mentions p (deallocate_failure p) = true.
Proof. unfold deallocate_failure. mentioned. Qed.

Example str_int_50 : str_int 50 = "50".
Proof. reflexivity. Qed.

Example str_int_negative : str_int (-7) = "-7".
Proof. reflexivity. Qed.

(** ** One call *)

Lemma allocate_hit (p : string) (sz : Z) (self : QuickFit) (b : string)
      (rest : list string) :
  dict_get Z.eq_dec sz (memory_blocks self) = Some (b :: rest) ->
  allocate p sz self =
    ((true, allocate_success p b sz),
     {| memory_blocks := dict_setitem Z.eq_dec sz rest (memory_blocks self);
        allocated_processes :=
          dict_setitem string_dec p {| block := b; size := sz |}
            (allocated_processes self) |}).
Proof. intros H. unfold allocate. now rewrite H. Qed.

Lemma allocate_miss (p : string) (sz : Z) (self : QuickFit) :
  dict_get Z.eq_dec sz (memory_blocks self) = None \/
  dict_get Z.eq_dec sz (memory_blocks self) = Some [] ->
  allocate p sz self = ((false, allocate_failure p sz), self).
Proof. intros [H|H]; unfold allocate; now rewrite H. Qed.

Lemma deallocate_hit (p : string) (self : QuickFit) (a : allocation) :
  dict_get string_dec p (allocated_processes self) = Some a ->
  deallocate p self =
    ((true, deallocate_success (block a) (size a)),
     {| memory_blocks :=
          match dict_get Z.eq_dec (size a) (memory_blocks self) with
          | Some blocks =>
              dict_setitem Z.eq_dec (size a) (blocks ++ [block a])%list
                (memory_blocks self)
          | None =>
              dict_setitem Z.eq_dec (size a) [block a] (memory_blocks self)
          end;
        allocated_processes :=
          dict_delitem string_dec p (allocated_processes self) |}).
Proof. intros H. unfold deallocate. now rewrite H. Qed.

Lemma deallocate_miss (p : string) (self : QuickFit) :
  dict_get string_dec p (allocated_processes self) = None ->
  deallocate p self = ((false, deallocate_failure p), self).
Proof. intros H. unfold deallocate. now rewrite H. Qed.

(** The pool and the binding after a successful [allocate]. *)
Lemma allocate_takes_front (p : string) (sz : Z) (self : QuickFit) (b : string)
      (rest : list string) :
  dict_get Z.eq_dec sz (memory_blocks self) = Some (b :: rest) ->
  dict_get Z.eq_dec sz (memory_blocks (snd (allocate p sz self))) = Some rest /\
  dict_get string_dec p (allocated_processes (snd (allocate p sz self)))
    = Some {| block := b; size := sz |}.
Proof.
  intros G. rewrite (allocate_hit p _ _ _ _ G). cbn.
  split; apply dict_get_setitem_eq.
Qed.

(** After [deallocate] the process holds nothing, whatever it held. *)
Lemma deallocate_unbinds (p : string) (self : QuickFit) :
  dict_get string_dec p (allocated_processes (snd (deallocate p self))) = None.
Proof.
  destruct (dict_get string_dec p (allocated_processes self)) as [a|] eqn:G.
  - rewrite (deallocate_hit _ _ _ G). simpl. apply dict_get_delitem_eq.
  - now rewrite (deallocate_miss _ _ G).
Qed.

(** The free sequence of the class a successful [deallocate] returns to. *)
Lemma deallocate_pool (p : string) (self : QuickFit) (a : allocation) :
  dict_get string_dec p (allocated_processes self) = Some a ->
  dict_get Z.eq_dec (size a) (memory_blocks (snd (deallocate p self))) =
    Some (match dict_get Z.eq_dec (size a) (memory_blocks self) with
          | Some blocks => blocks ++ [block a]
          | None => [block a]
          end)%list.
Proof.
  intros G. rewrite (deallocate_hit _ _ _ G). simpl.
  destruct (dict_get Z.eq_dec (size a) (memory_blocks self));
    apply dict_get_setitem_eq.
Qed.

(** ** Allocation *)

(** C1. When the requested size is a known class whose free sequence is
    not empty, [allocate] succeeds: the first (oldest) block name leaves
    that sequence, the process is bound to that block and size, and the
    message names the block, the process and the size.  With class 50
    seeded by Block1, Block2, the requests of P1 then P2 for 50 get
    Block1 then Block2. *)
Theorem allocate_takes_oldest_block
  (self : QuickFit) (process_id : string) (sz : Z)
  (allocated_block : string) (rest : list string)
  (H : dict_get Z.eq_dec sz (memory_blocks self)
       = Some (allocated_block :: rest)) :
  let result := fst (allocate process_id sz self) in
  let self' := snd (allocate process_id sz self) in
  (result = (true, allocate_success process_id allocated_block sz) /\
   mentions allocated_block (snd result) = true /\
   mentions process_id (snd result) = true /\
   mentions (str_int sz) (snd result) = true /\
   dict_get Z.eq_dec sz (memory_blocks self') = Some rest /\
   dict_get string_dec process_id (allocated_processes self')
     = Some {| block := allocated_block; size := sz |}) /\
  (let first := allocate "P1" 50 (init [(50, ["Block1"; "Block2"])]) in
   let second := allocate "P2" 50 (snd first) in
   fst first = (true, "Process P1 allocated to Block1 (50 KB).") /\
   fst second = (true, "Process P2 allocated to Block2 (50 KB).") /\
   memory_blocks (snd second) = [(50, [])] /\
   allocated_processes (snd second)
     = [("P1", {| block := "Block1"; size := 50 |});
        ("P2", {| block := "Block2"; size := 50 |})]).
Proof.
  intros result self'. subst result self'.
  rewrite (allocate_hit process_id _ _ _ _ H). cbn [fst snd].
  destruct (allocate_success_mentions process_id allocated_block sz)
    as (Mp & Mb & Ms).
  split.
  - repeat split; trivial; cbn [memory_blocks allocated_processes];
      apply dict_get_setitem_eq.
  - repeat split; reflexivity.
Qed.

Lemma allocate_takes_oldest_block_witness :
  dict_get Z.eq_dec 100 (memory_blocks (init initial_blocks))
    = Some ["Block3"; "Block4"] /\
  fst (allocate "P7" 100 (init initial_blocks))
    = (true, "Process P7 allocated to Block3 (100 KB).").
Proof.
  split; [reflexivity|].
  destruct (allocate_takes_oldest_block (init initial_blocks) "P7" 100
              "Block3" ["Block4"] eq_refl) as [[R _] _].
  exact R.
Defined.

(** C2. When the requested size is not a known class, or its free
    sequence is empty, [allocate] fails with the no-exact-block message
    naming the process and the size, and the allocator is unchanged; a
    failed request for the unseeded size 999 creates no class 999. *)
Theorem allocate_failure_changes_nothing
  (self : QuickFit) (process_id : string) (sz : Z)
  (H : dict_get Z.eq_dec sz (memory_blocks self) = None \/
       dict_get Z.eq_dec sz (memory_blocks self) = Some []) :
  allocate process_id sz self = ((false, allocate_failure process_id sz), self) /\
  mentions process_id (allocate_failure process_id sz) = true /\
  mentions (str_int sz) (allocate_failure process_id sz) = true /\
  (dict_contains Z.eq_dec sz (memory_blocks self) = false ->
   dict_contains Z.eq_dec sz
     (memory_blocks (snd (allocate process_id sz self))) = false) /\
  (let after := allocate "P1" 999 (init initial_blocks) in
   fst after =
     (false, "No exact block available for Process P1 requiring 999 KB.") /\
   snd after = init initial_blocks /\
   dict_contains Z.eq_dec 999 (memory_blocks (snd after)) = false /\
   ~ In 999 (keys (memory_blocks (snd after)))).
Proof.
  rewrite (allocate_miss process_id sz self H).
  destruct (allocate_failure_mentions process_id sz) as (Mp & Ms).
  repeat split; trivial.
  cbn. intros C. repeat destruct C as [C|C]; try discriminate C. exact C.
Qed.

Lemma allocate_failure_changes_nothing_witness :
  dict_get Z.eq_dec 200
    (memory_blocks (snd (allocate "P1" 200 (init initial_blocks)))) = Some [] /\
  allocate "P2" 200 (snd (allocate "P1" 200 (init initial_blocks)))
    = ((false, "No exact block available for Process P2 requiring 200 KB."),
       snd (allocate "P1" 200 (init initial_blocks))).
Proof.
  split; [reflexivity|].
  exact (proj1 (allocate_failure_changes_nothing
                  (snd (allocate "P1" 200 (init initial_blocks))) "P2" 200
                  (or_intror eq_refl))).
Defined.

(** ** Deallocation *)

(** C3, as the code has it.  For a process bound to a block and a size,
    [deallocate] succeeds: the block name goes to the end of the free
    sequence of that size class (a class that is not there yet is added,
    last, holding that one block), the binding is removed, and the
    message names the block and the size class; its text is fixed by
    these two alone and does not carry the process id. *)
Theorem deallocate_returns_block
  (self : QuickFit) (process_id : string) (a : allocation)
  (H : dict_get string_dec process_id (allocated_processes self) = Some a) :
  let result := fst (deallocate process_id self) in
  let self' := snd (deallocate process_id self) in
  result = (true, deallocate_success (block a) (size a)) /\
  mentions (block a) (snd result) = true /\
  mentions (str_int (size a)) (snd result) = true /\
  (forall blocks,
     dict_get Z.eq_dec (size a) (memory_blocks self) = Some blocks ->
     dict_get Z.eq_dec (size a) (memory_blocks self')
       = Some (blocks ++ [block a])%list /\
     keys (memory_blocks self') = keys (memory_blocks self)) /\
  (dict_get Z.eq_dec (size a) (memory_blocks self) = None ->
   memory_blocks self' = (memory_blocks self ++ [(size a, [block a])])%list) /\
  dict_get string_dec process_id (allocated_processes self') = None.
Proof.
  intros result self'. subst result self'.
  pose proof (deallocate_pool _ _ _ H) as P.
  pose proof (deallocate_unbinds process_id self) as U.
  rewrite (deallocate_hit _ _ _ H) in *. cbn [fst snd] in *.
  destruct (deallocate_success_mentions (block a) (size a)) as (Mb & Ms).
  split; [reflexivity|]. split; [exact Mb|]. split; [exact Ms|].
  split; [|split; [|exact U]].
  - intros blocks G. rewrite G in P. cbn [memory_blocks]. rewrite G.
    split; [exact P | now apply keys_setitem_present with blocks].
  - intros N. cbn [memory_blocks]. rewrite N. now apply dict_setitem_absent.
Qed.

Lemma deallocate_returns_block_witness :
  dict_get string_dec "P1"
    (allocated_processes (snd (allocate "P1" 50 (init initial_blocks))))
    = Some {| block := "Block1"; size := 50 |} /\
  fst (deallocate "P1" (snd (allocate "P1" 50 (init initial_blocks))))
    = (true, "Block Block1 (50 KB) deallocated.").
Proof.
  split; [reflexivity|].
  exact (proj1 (deallocate_returns_block
                  (snd (allocate "P1" 50 (init initial_blocks))) "P1"
                  {| block := "Block1"; size := 50 |} eq_refl)).
Defined.

(** C3 as stated fails where it has the result report the process id:
    P1 holds Block1 of class 50, and the message of its successful
    [deallocate] does not contain P1. *)
Lemma deallocate_success_omits_process :
  let self := snd (allocate "P1" 50 (init initial_blocks)) in
  dict_get string_dec "P1" (allocated_processes self)
    = Some {| block := "Block1"; size := 50 |} /\
  fst (deallocate "P1" self) = (true, "Block Block1 (50 KB) deallocated.") /\
  mentions "P1" (snd (fst (deallocate "P1" self))) = false.
Proof. repeat split; reflexivity. Qed.

(** C4. For a process without a binding, [deallocate] fails with the
    no-allocation message naming the process and changes nothing; a
    [deallocate] repeated at once after any [deallocate] of the same
    process fails in that way. *)
Theorem deallocate_unbound_fails
  (self : QuickFit) (process_id : string)
  (H : dict_get string_dec process_id (allocated_processes self) = None) :
  deallocate process_id self = ((false, deallocate_failure process_id), self) /\
  mentions process_id (deallocate_failure process_id) = true /\
  (forall (other : QuickFit) (p : string),
     let once := deallocate p other in
     let twice := deallocate p (snd once) in
     fst twice = (false, deallocate_failure p) /\ snd twice = snd once).
Proof.
  split; [now apply deallocate_miss|].
  split; [apply deallocate_failure_mentions|].
  intros other p once twice. subst once twice.
  now rewrite (deallocate_miss p _ (deallocate_unbinds p other)).
Qed.

Lemma deallocate_unbound_fails_witness :
  dict_get string_dec "P9" (allocated_processes (init initial_blocks)) = None /\
  deallocate "P9" (init initial_blocks)
    = ((false, "No allocation found for Process P9."), init initial_blocks).
Proof.
  split; [reflexivity|].
  exact (proj1 (deallocate_unbound_fails (init initial_blocks) "P9" eq_refl)).
Defined.

(** ** What a successful call leaves alone *)

(** In the dictionary of list values: a successful [allocate] rewrites
    the entry of its class and the binding of its process, a successful
    [deallocate] the entry of the bound class and the binding of its
    process, and nothing else.  List objects held under several sizes
    are treated with module [Objects] further down. *)
Theorem successful_calls_frame
  (self : QuickFit) (p : string) (sz : Z) (b : string) (rest : list string)
  (Hfree : dict_get Z.eq_dec sz (memory_blocks self) = Some (b :: rest))
  (other : QuickFit) (q : string) (a : allocation)
  (Hbound : dict_get string_dec q (allocated_processes other) = Some a) :
  (let self' := snd (allocate p sz self) in
   fst (fst (allocate p sz self)) = true /\
   (exists before after,
      memory_blocks self = (before ++ (sz, b :: rest) :: after)%list /\
      memory_blocks self' = (before ++ (sz, rest) :: after)%list) /\
   (forall sz', sz' <> sz ->
      dict_get Z.eq_dec sz' (memory_blocks self')
        = dict_get Z.eq_dec sz' (memory_blocks self)) /\
   (forall p', p' <> p ->
      dict_get string_dec p' (allocated_processes self')
        = dict_get string_dec p' (allocated_processes self)) /\
   dict_get string_dec p (allocated_processes self')
     = Some {| block := b; size := sz |}) /\
  (let other' := snd (deallocate q other) in
   fst (fst (deallocate q other)) = true /\
   dict_get Z.eq_dec (size a) (memory_blocks other')
     = Some (match dict_get Z.eq_dec (size a) (memory_blocks other) with
             | Some blocks => blocks ++ [block a]
             | None => [block a]
             end)%list /\
   (forall sz', sz' <> size a ->
      dict_get Z.eq_dec sz' (memory_blocks other')
        = dict_get Z.eq_dec sz' (memory_blocks other)) /\
   (forall q', q' <> q ->
      dict_get string_dec q' (allocated_processes other')
        = dict_get string_dec q' (allocated_processes other)) /\
   dict_get string_dec q (allocated_processes other') = None /\
   keys (allocated_processes other')
     = remove string_dec q (keys (allocated_processes other))).
Proof.
  split.
  - rewrite (allocate_hit p _ _ _ _ Hfree). cbn.
    split; [reflexivity|]. split; [|split; [|split]].
    + destruct (dict_get_split _ _ _ _ Hfree) as (d1 & d2 & E & _ & S).
      exists d1, d2. split; [exact E | apply S].
    + intros sz' N. apply dict_get_setitem_ne. congruence.
    + intros p' N. apply dict_get_setitem_ne. congruence.
    + apply dict_get_setitem_eq.
  - pose proof (deallocate_pool _ _ _ Hbound) as P.
    pose proof (deallocate_unbinds q other) as U.
    rewrite (deallocate_hit _ _ _ Hbound) in *. cbn [fst snd] in *.
    split; [reflexivity|]. split; [exact P|]. split; [|split; [|split]].
    + intros sz' N. cbn [memory_blocks].
      destruct (dict_get Z.eq_dec (size a) (memory_blocks other));
        apply dict_get_setitem_ne; congruence.
    + intros q' N. cbn [allocated_processes].
      apply dict_get_delitem_ne. congruence.
    + exact U.
    + apply keys_delitem.
Qed.

Lemma successful_calls_frame_witness :
  dict_get Z.eq_dec 100
    (memory_blocks (snd (allocate "P1" 50 (init initial_blocks))))
    = dict_get Z.eq_dec 100 (memory_blocks (init initial_blocks)) /\
  dict_get Z.eq_dec 100
    (memory_blocks
       (snd (deallocate "P1" (snd (allocate "P1" 50 (init initial_blocks))))))
    = dict_get Z.eq_dec 100
        (memory_blocks (snd (allocate "P1" 50 (init initial_blocks)))).
Proof.
  destruct (successful_calls_frame
              (init initial_blocks) "P1" 50 "Block1" ["Block2"] eq_refl
              (snd (allocate "P1" 50 (init initial_blocks))) "P1"
              {| block := "Block1"; size := 50 |} eq_refl)
    as [(_ & _ & F & _) (_ & _ & G & _)].
  split; [apply F | apply G]; discriminate.
Defined.

(** ** The report *)

Lemma string_append_assoc (a b c : string) : (a ++ b) ++ c = a ++ b ++ c.
Proof. induction a as [|x a IH]; simpl; [reflexivity | now rewrite IH]. Qed.

Lemma fold_left_append {A : Type} (f : A -> string) (l : list A) (s : string) :
  fold_left (fun state item => state ++ f item) l s = s ++ lines (map f l).
Proof.
  revert s. induction l as [|x l IH]; intros s; simpl.
  - induction s as [|c s IHs]; simpl; [reflexivity | now rewrite <- IHs].
  - rewrite IH. apply string_append_assoc.
Qed.

Lemma get_memory_state_text (repr_str : string -> string) (self : QuickFit) :
  fst (get_memory_state repr_str self) =
    ("Available Memory Blocks:" ++ newline)
    ++ lines (map (blocks_line repr_str) (memory_blocks self))
    ++ (newline ++ "Allocated Processes:" ++ newline)
    ++ lines (map process_line (allocated_processes self)).
Proof.
  unfold get_memory_state. cbn [fst].
  rewrite !fold_left_append. now rewrite !string_append_assoc.
Qed.

(** C8. [get_memory_state] always returns a text, leaves the pools and
    the bindings as they were, and called twice in a row gives the same
    text. *)
Theorem get_memory_state_pure (repr_str : string -> string) (self : QuickFit) :
  (exists state, get_memory_state repr_str self = (state, self)) /\
  memory_blocks (snd (get_memory_state repr_str self)) = memory_blocks self /\
  allocated_processes (snd (get_memory_state repr_str self))
    = allocated_processes self /\
  (let once := get_memory_state repr_str self in
   let twice := get_memory_state repr_str (snd once) in
   fst twice = fst once /\ snd twice = self).
Proof.
  split; [eexists; reflexivity|]. repeat split; reflexivity.
Qed.

(** ** The order of the keys *)

Lemma dict_contains_keys {K V : Type} (dec : forall x y : K, {x = y} + {x <> y})
      (k : K) (d : dict K V) :
  dict_contains dec k d = true <-> In k (keys d).
Proof.
  unfold dict_contains. pose proof (dict_get_None_keys dec k d) as N.
  destruct (dict_get dec k d).
  - split; trivial. intros _.
    destruct (in_dec dec k (keys d)) as [I|I]; trivial.
    apply N in I. discriminate.
  - split; [discriminate|]. intros I. exfalso. now apply N.
Qed.

Lemma Forall_setitem {K V : Type} (dec : forall x y : K, {x = y} + {x <> y})
      (P : K * V -> Prop) (k : K) (v : V) (d : dict K V) :
  Forall P d -> P (k, v) -> Forall P (dict_setitem dec k v d).
Proof.
  intros F Pk. induction F as [|[k' v'] d Px F IH]; simpl.
  - auto.
  - destruct (dec k k'); auto.
Qed.

Lemma Forall_delitem {K V : Type} (dec : forall x y : K, {x = y} + {x <> y})
      (P : K * V -> Prop) (k : K) (d : dict K V) :
  Forall P d -> Forall P (dict_delitem dec k d).
Proof.
  intros F. induction F as [|[k' v'] d Px F IH]; simpl; auto.
  destruct (dec k k'); auto.
Qed.

Lemma step_memory_keys (c : call) (self : QuickFit) :
  keys (memory_blocks (snd (step c self)))
    = (keys (memory_blocks self) ++ created_class c self)%list.
Proof.
  destruct c as [p sz|p]; simpl.
  - rewrite app_nil_r. unfold allocate.
    destruct (dict_get Z.eq_dec sz (memory_blocks self)) as [[|b rest]|] eqn:G;
      trivial.
    cbn. now apply keys_setitem_present with (b :: rest).
  - unfold deallocate, dict_contains.
    destruct (dict_get string_dec p (allocated_processes self)) as [a|];
      [|now rewrite app_nil_r].
    cbn. destruct (dict_get Z.eq_dec (size a) (memory_blocks self)) eqn:G.
    + rewrite app_nil_r. now apply keys_setitem_present with l.
    + now apply keys_setitem_absent.
Qed.

Lemma step_bound_keys (c : call) (self : QuickFit) :
  keys (allocated_processes (snd (step c self))) = bound_after c self.
Proof.
  destruct c as [p sz|p]; unfold bound_after; simpl.
  - unfold allocate, dict_contains.
    destruct (dict_get Z.eq_dec sz (memory_blocks self)) as [[|b rest]|];
      trivial.
    cbn. destruct (dict_get string_dec p (allocated_processes self)) eqn:G.
    + now apply keys_setitem_present with a.
    + now apply keys_setitem_absent.
  - unfold deallocate.
    destruct (dict_get string_dec p (allocated_processes self)) as [a|] eqn:G.
    + cbn. apply keys_delitem.
    + cbn. symmetry. apply notin_remove. now apply dict_get_None_keys in G.
Qed.

Lemma sizes_known_step (c : call) (self : QuickFit) :
  sizes_known self -> sizes_known (snd (step c self)).
Proof.
  unfold sizes_known. intros F.
  assert (M : Forall (fun item : string * allocation =>
                        In (size (snd item))
                           (keys (memory_blocks (snd (step c self)))))
                     (allocated_processes self)).
  { rewrite step_memory_keys. eapply Forall_impl; [|exact F].
    intros item I. apply in_or_app. now left. }
  destruct c as [p sz|p]; simpl in *.
  - unfold allocate in *.
    destruct (dict_get Z.eq_dec sz (memory_blocks self)) as [[|b rest]|] eqn:G;
      trivial.
    cbn in *. apply Forall_setitem; trivial. cbn [snd size].
    change (In sz (keys (dict_setitem Z.eq_dec sz rest (memory_blocks self)))).
    rewrite (keys_setitem_present _ _ _ _ _ G).
    apply dict_contains_keys with (dec := Z.eq_dec).
    unfold dict_contains. now rewrite G.
  - unfold deallocate in *.
    destruct (dict_get string_dec p (allocated_processes self)) as [a|];
      trivial.
    cbn in *. now apply Forall_delitem.
Qed.


Lemma sizes_known_init (seed : dict Z (list string)) : sizes_known (init seed).
Proof. constructor. Qed.

(** While every binding's size is a known class, no call adds a class. *)
Lemma sizes_known_no_creation (c : call) (self : QuickFit) :
  sizes_known self -> created_class c self = [].
Proof.
  intros S. destruct c as [p sz|p]; simpl; trivial.
  destruct (dict_get string_dec p (allocated_processes self)) as [a|] eqn:G;
    trivial.
  apply dict_get_Some_In in G.
  unfold sizes_known in S. rewrite Forall_forall in S. apply S in G. cbn in G.
  apply dict_contains_keys with (dec := Z.eq_dec) in G. now rewrite G.
Qed.

Lemma created_along_known (calls : list call) (self : QuickFit) :
  sizes_known self -> created_along calls self = [].
Proof.
  revert self. induction calls as [|c calls IH]; intros self S; simpl; trivial.
  rewrite (sizes_known_no_creation c self S).
  now rewrite IH by now apply sizes_known_step.
Qed.

Lemma run_memory_keys (calls : list call) (self : QuickFit) :
  keys (memory_blocks (run calls self))
    = (keys (memory_blocks self) ++ created_along calls self)%list.
Proof.
  revert self. induction calls as [|c calls IH]; intros self; simpl.
  - now rewrite app_nil_r.
  - rewrite IH, step_memory_keys. now rewrite app_assoc.
Qed.

(** ** Where the blocks go *)

Lemma concat_around {A : Type} (d1 d2 : dict Z (list A)) (k : Z) (l : list A) :
  List.concat (map snd (d1 ++ (k, l) :: d2))
    = (List.concat (map snd d1) ++ l ++ List.concat (map snd d2))%list.
Proof. now rewrite map_app, concat_app. Qed.

Lemma blocks_around (d1 d2 : dict string allocation) (p : string)
      (a : allocation) :
  map (fun item : string * allocation => block (snd item)) (d1 ++ (p, a) :: d2)
    = (map (fun item => block (snd item)) d1
       ++ block a :: map (fun item => block (snd item)) d2)%list.
Proof. now rewrite map_app. Qed.

(** Equal multisets of names, by counting each name on both sides. *)
Ltac count_names :=
  apply (Permutation_count_occ string_dec); intros x;
  repeat rewrite count_occ_app; cbn [count_occ];
  repeat rewrite count_occ_app; cbn [count_occ];
  repeat match goal with
         | |- context [string_dec ?u x] => destruct (string_dec u x)
         end;
  lia.

(** Allocating for a process that holds nothing moves one name from the
    free sequences to the bindings. *)
Lemma allocate_fresh_blocks (p : string) (sz : Z) (self : QuickFit)
      (b : string) (rest : list string) :
  dict_get Z.eq_dec sz (memory_blocks self) = Some (b :: rest) ->
  dict_get string_dec p (allocated_processes self) = None ->
  Permutation (all_blocks (snd (allocate p sz self))) (all_blocks self).
Proof.
  intros G N. rewrite (allocate_hit p _ _ _ _ G).
  destruct (dict_get_split _ _ _ _ G) as (d1 & d2 & E & _ & S).
  unfold all_blocks, free_blocks, bound_blocks. cbn.
  rewrite S, (dict_setitem_absent _ _ _ _ N), E, !concat_around, map_app.
  cbn [map snd block]. count_names.
Qed.

(** Allocating for a process that holds a block puts the new name in the
    place of the old one, which is then nowhere. *)
Lemma allocate_again_blocks (p : string) (sz : Z) (self : QuickFit)
      (b : string) (rest : list string) (a : allocation) :
  dict_get Z.eq_dec sz (memory_blocks self) = Some (b :: rest) ->
  dict_get string_dec p (allocated_processes self) = Some a ->
  Permutation (block a :: all_blocks (snd (allocate p sz self)))
              (all_blocks self).
Proof.
  intros G B. rewrite (allocate_hit p _ _ _ _ G).
  destruct (dict_get_split _ _ _ _ G) as (d1 & d2 & E & _ & S).
  destruct (dict_get_split _ _ _ _ B) as (e1 & e2 & E' & _ & S').
  unfold all_blocks, free_blocks, bound_blocks. cbn.
  rewrite S, S', E, E', !concat_around, !blocks_around.
  cbn [block]. count_names.
Qed.

(** Releasing moves one name from the bindings to the free sequences. *)
Lemma deallocate_blocks (p : string) (self : QuickFit) (a : allocation) :
  dict_wf (allocated_processes self) ->
  dict_get string_dec p (allocated_processes self) = Some a ->
  Permutation (all_blocks (snd (deallocate p self))) (all_blocks self).
Proof.
  intros W B. rewrite (deallocate_hit _ _ _ B).
  destruct (dict_delitem_split _ _ _ _ W B) as (e1 & e2 & E' & D).
  unfold all_blocks, free_blocks, bound_blocks. cbn.
  rewrite D, E', blocks_around, map_app.
  destruct (dict_get Z.eq_dec (size a) (memory_blocks self)) as [l|] eqn:G.
  - destruct (dict_get_split _ _ _ _ G) as (d1 & d2 & E & _ & S).
    rewrite S, E, !concat_around. count_names.
  - rewrite (dict_setitem_absent _ _ _ _ G), map_app, concat_app.
    cbn [map snd List.concat]. count_names.
Qed.

Lemma allocate_cases (p : string) (sz : Z) (self : QuickFit) :
  (exists b rest,
     dict_get Z.eq_dec sz (memory_blocks self) = Some (b :: rest)) \/
  allocate p sz self = ((false, allocate_failure p sz), self).
Proof.
  destruct (dict_get Z.eq_dec sz (memory_blocks self)) as [[|b rest]|] eqn:G.
  - right. apply allocate_miss. now right.
  - left. now exists b, rest.
  - right. apply allocate_miss. now left.
Qed.

Lemma step_wf (c : call) (self : QuickFit) :
  dict_wf (allocated_processes self) ->
  dict_wf (allocated_processes (snd (step c self))).
Proof.
  intros W. destruct c as [p sz|p]; simpl.
  - destruct (allocate_cases p sz self) as [(b & rest & G)|F].
    + rewrite (allocate_hit p _ _ _ _ G). cbn. now apply dict_wf_setitem.
    + now rewrite F.
  - unfold deallocate.
    destruct (dict_get string_dec p (allocated_processes self)); trivial.
    cbn. now apply dict_wf_delitem.
Qed.

Lemma run_wf (calls : list call) (self : QuickFit) :
  dict_wf (allocated_processes self) ->
  dict_wf (allocated_processes (run calls self)).
Proof.
  revert self. induction calls as [|c calls IH]; intros self W; simpl; trivial.
  apply IH. now apply step_wf.
Qed.

(** A call that does not allocate again for a bound process keeps every
    name: each stands as often after the call as before. *)
Lemma step_blocks_kept (c : call) (self : QuickFit) :
  dict_wf (allocated_processes self) -> rebinds c self = false ->
  Permutation (all_blocks (snd (step c self))) (all_blocks self).
Proof.
  intros W R. destruct c as [p sz|p]; simpl in *.
  - destruct (allocate_cases p sz self) as [(b & rest & G)|F].
    + rewrite (allocate_hit p _ _ _ _ G) in R. cbn in R.
      rewrite andb_true_r in R. unfold dict_contains in R.
      destruct (dict_get string_dec p (allocated_processes self)) eqn:N;
        [discriminate|].
      now apply allocate_fresh_blocks with b rest.
    + now rewrite F.
  - destruct (dict_get string_dec p (allocated_processes self)) as [a|] eqn:B.
    + now apply deallocate_blocks with a.
    + now rewrite (deallocate_miss _ _ B).
Qed.

(** No call makes a name stand more often than before. *)
Lemma step_blocks_bounded (c : call) (self : QuickFit) (x : string) :
  dict_wf (allocated_processes self) ->
  (count_occ string_dec (all_blocks (snd (step c self))) x
   <= count_occ string_dec (all_blocks self) x)%nat.
Proof.
  intros W. destruct (rebinds c self) eqn:R.
  - destruct c as [p sz|p]; simpl in *; [|discriminate].
    apply andb_prop in R. destruct R as [C S].
    destruct (allocate_cases p sz self) as [(b & rest & G)|F];
      [|rewrite F in S; discriminate].
    unfold dict_contains in C.
    destruct (dict_get string_dec p (allocated_processes self)) as [a|] eqn:B;
      [|discriminate].
    pose proof (allocate_again_blocks p sz self b rest a G B) as P.
    rewrite (Permutation_count_occ string_dec) in P. rewrite <- (P x).
    cbn [count_occ]. destruct (string_dec (block a) x); lia.
  - pose proof (step_blocks_kept c self W R) as P.
    rewrite (Permutation_count_occ string_dec) in P. now rewrite (P x).
Qed.

Lemma run_blocks_kept (calls : list call) (self : QuickFit) :
  dict_wf (allocated_processes self) -> no_rebind calls self = true ->
  Permutation (all_blocks (run calls self)) (all_blocks self).
Proof.
  revert self. induction calls as [|c calls IH]; intros self W R; simpl in *.
  - apply Permutation_refl.
  - apply andb_prop in R. destruct R as [R1 R2].
    apply negb_true_iff in R1.
    eapply Permutation_trans; [apply IH; [now apply step_wf | exact R2]|].
    now apply step_blocks_kept.
Qed.

Lemma run_blocks_bounded (calls : list call) (self : QuickFit) (x : string) :
  dict_wf (allocated_processes self) ->
  (count_occ string_dec (all_blocks (run calls self)) x
   <= count_occ string_dec (all_blocks self) x)%nat.
Proof.
  revert self. induction calls as [|c calls IH]; intros self W; simpl.
  - lia.
  - etransitivity; [apply IH; now apply step_wf|].
    now apply step_blocks_bounded.
Qed.

Lemma occurrences_sum (x : string) (self : QuickFit) :
  (free_occurrences x self + bound_occurrences x self)%nat
    = count_occ string_dec (all_blocks self) x.
Proof.
  unfold free_occurrences, bound_occurrences, all_blocks.
  now rewrite count_occ_app.
Qed.

Lemma all_blocks_init (seed : dict Z (list string)) :
  all_blocks (init seed) = seed_blocks seed.
Proof. unfold all_blocks, free_blocks, bound_blocks. cbn. apply app_nil_r. Qed.

Lemma dict_wf_init (seed : dict Z (list string)) :
  dict_wf (allocated_processes (init seed)).
Proof. constructor. Qed.

(** C5, as the code has it.  From a seed whose block names are pairwise
    distinct, after any sequence of [allocate] and [deallocate] calls no
    name stands in more than one place (free sequences and bindings
    together) and no name stands anywhere that the seed did not
    introduce; and when no call of the sequence allocates successfully
    for a process that is bound at that moment, every name of the seed
    stands in exactly one place: once in the free sequences and in no
    binding, or in one binding and in no free sequence. *)
Theorem blocks_stay_in_one_place
  (seed : dict Z (list string)) (calls : list call)
  (Hseed : NoDup (seed_blocks seed)) :
  let self := run calls (init seed) in
  NoDup (all_blocks self) /\
  (forall b,
     (free_occurrences b self + bound_occurrences b self <= 1)%nat) /\
  (forall b, In b (all_blocks self) -> In b (seed_blocks seed)) /\
  (no_rebind calls (init seed) = true ->
   forall b, In b (seed_blocks seed) ->
     (free_occurrences b self = 1 /\ bound_occurrences b self = 0)%nat \/
     (free_occurrences b self = 0 /\ bound_occurrences b self = 1)%nat).
Proof.
  intros self. subst self.
  pose proof (fun x => run_blocks_bounded calls (init seed) x
                         (dict_wf_init seed)) as Le.
  rewrite all_blocks_init in Le.
  rewrite (NoDup_count_occ string_dec) in Hseed.
  assert (One : forall b,
             (count_occ string_dec (all_blocks (run calls (init seed))) b
              <= 1)%nat).
  { intros b. specialize (Le b). specialize (Hseed b). lia. }
  split; [now apply (NoDup_count_occ string_dec)|].
  split; [intros b; rewrite occurrences_sum; apply One|].
  split.
  - intros b I. apply (count_occ_In string_dec) in I.
    apply (count_occ_In string_dec). specialize (Le b). lia.
  - intros R b I.
    pose proof (run_blocks_kept calls (init seed) (dict_wf_init seed) R) as P.
    rewrite all_blocks_init, (Permutation_count_occ string_dec) in P.
    apply (count_occ_In string_dec) in I.
    specialize (P b). specialize (One b). rewrite <- occurrences_sum in *.
    lia.
Qed.

Lemma initial_blocks_distinct : NoDup (seed_blocks initial_blocks).
Proof.
  cbn.
  repeat (apply NoDup_cons;
          [cbn; intros H; repeat destruct H as [H|H];
           try discriminate H; exact H|]).
  apply NoDup_nil.
Qed.

Lemma blocks_stay_in_one_place_witness :
  NoDup (seed_blocks initial_blocks) /\
  no_rebind [Allocate "P1" 50; Allocate "P2" 50; Deallocate "P1"]
    (init initial_blocks) = true /\
  free_occurrences "Block1"
    (run [Allocate "P1" 50; Allocate "P2" 50; Deallocate "P1"]
       (init initial_blocks)) = 1%nat /\
  bound_occurrences "Block2"
    (run [Allocate "P1" 50; Allocate "P2" 50; Deallocate "P1"]
       (init initial_blocks)) = 1%nat /\
  ((free_occurrences "Block3"
      (run [Allocate "P1" 50; Allocate "P2" 50; Deallocate "P1"]
         (init initial_blocks)) = 1 /\
    bound_occurrences "Block3"
      (run [Allocate "P1" 50; Allocate "P2" 50; Deallocate "P1"]
         (init initial_blocks)) = 0)%nat \/
   (free_occurrences "Block3"
      (run [Allocate "P1" 50; Allocate "P2" 50; Deallocate "P1"]
         (init initial_blocks)) = 0 /\
    bound_occurrences "Block3"
      (run [Allocate "P1" 50; Allocate "P2" 50; Deallocate "P1"]
         (init initial_blocks)) = 1)%nat).
Proof.
  split; [exact initial_blocks_distinct|].
  split; [reflexivity|]. split; [reflexivity|]. split; [reflexivity|].
  destruct (blocks_stay_in_one_place initial_blocks
              [Allocate "P1" 50; Allocate "P2" 50; Deallocate "P1"]
              initial_blocks_distinct) as (_ & _ & _ & E).
  apply E; [reflexivity|]. cbn. tauto.
Defined.

(** C5 as stated fails: from the seed of the GUI, P1 allocates twice at
    size 50; Block1, which the seed introduced, then stands neither in a
    free sequence nor in a binding. *)
Lemma reallocation_loses_block :
  let self := run [Allocate "P1" 50; Allocate "P1" 50] (init initial_blocks) in
  NoDup (seed_blocks initial_blocks) /\
  In "Block1" (seed_blocks initial_blocks) /\
  memory_blocks self
    = [(50, []); (100, ["Block3"; "Block4"]); (200, ["Block5"])] /\
  allocated_processes self = [("P1", {| block := "Block2"; size := 50 |})] /\
  free_occurrences "Block1" self = 0%nat /\
  bound_occurrences "Block1" self = 0%nat /\
  ~ In "Block1" (all_blocks self).
Proof.
  split; [exact initial_blocks_distinct|].
  split; [cbn; tauto|].
  repeat split; try reflexivity.
  apply (count_occ_not_In string_dec). reflexivity.
Qed.

(** In a state built from distinctly named blocks, the block of a binding
    stands in that binding and nowhere else. *)
Lemma bound_block_once (seed : dict Z (list string)) (calls : list call)
      (p : string) (a : allocation) :
  NoDup (seed_blocks seed) ->
  dict_get string_dec p (allocated_processes (run calls (init seed))) = Some a ->
  (free_occurrences (block a) (run calls (init seed))
   + bound_occurrences (block a) (run calls (init seed)) = 1)%nat.
Proof.
  intros D B.
  pose proof (run_blocks_bounded calls (init seed) (block a)
                (dict_wf_init seed)) as Le.
  rewrite all_blocks_init in Le.
  rewrite (NoDup_count_occ string_dec) in D. specialize (D (block a)).
  assert (I : In (block a) (bound_blocks (run calls (init seed)))).
  { unfold bound_blocks. apply in_map_iff. exists (p, a).
    split; [reflexivity | now apply dict_get_Some_In with (1 := B)]. }
  apply (count_occ_In string_dec) in I.
  rewrite <- occurrences_sum in Le. unfold bound_occurrences in *. lia.
Qed.

(** C6, as the code has it.  A process holds block [b], and [b] stands
    in no other place (no free sequence lists it, no other binding holds
    it; this is so in every state built from distinctly named blocks).
    When the process allocates again, at a size whose free sequence is
    not empty, the call succeeds, the front block leaves that sequence
    and takes the place of [b] in the binding, and [b] is left in no
    free sequence and in no binding. *)
Theorem reallocation_orphans_block
  (self : QuickFit) (process_id : string) (sz : Z) (held : allocation)
  (fresh : string) (rest : list string)
  (Hbound : dict_get string_dec process_id (allocated_processes self)
            = Some held)
  (Hfree : dict_get Z.eq_dec sz (memory_blocks self) = Some (fresh :: rest))
  (Honce : (free_occurrences (block held) self
            + bound_occurrences (block held) self = 1)%nat) :
  let self' := snd (allocate process_id sz self) in
  fst (allocate process_id sz self)
    = (true, allocate_success process_id fresh sz) /\
  dict_get Z.eq_dec sz (memory_blocks self') = Some rest /\
  dict_get string_dec process_id (allocated_processes self')
    = Some {| block := fresh; size := sz |} /\
  keys (allocated_processes self') = keys (allocated_processes self) /\
  (forall sz' blocks,
     In (sz', blocks) (memory_blocks self') -> ~ In (block held) blocks) /\
  (forall q a, In (q, a) (allocated_processes self') -> block a <> block held) /\
  free_occurrences (block held) self' = 0%nat /\
  bound_occurrences (block held) self' = 0%nat.
Proof.
  intros self'. subst self'.
  pose proof (allocate_again_blocks process_id sz self fresh rest held
                Hfree Hbound) as P.
  rewrite (Permutation_count_occ string_dec) in P.
  specialize (P (block held)). rewrite occurrences_sum in Honce.
  rewrite count_occ_cons_eq in P by reflexivity.
  assert (Z0 : count_occ string_dec
                 (all_blocks (snd (allocate process_id sz self))) (block held)
               = 0%nat) by lia.
  rewrite <- occurrences_sum in Z0.
  assert (F0 : free_occurrences (block held)
                 (snd (allocate process_id sz self)) = 0%nat) by lia.
  assert (B0 : bound_occurrences (block held)
                 (snd (allocate process_id sz self)) = 0%nat) by lia.
  apply (count_occ_not_In string_dec) in F0 as NF.
  apply (count_occ_not_In string_dec) in B0 as NB.
  rewrite (allocate_hit process_id _ _ _ _ Hfree) in *. cbn [fst snd] in *.
  repeat split; trivial.
  - apply dict_get_setitem_eq.
  - apply dict_get_setitem_eq.
  - cbn. now apply keys_setitem_present with held.
  - intros sz' blocks I J. apply NF. unfold free_blocks.
    apply in_concat. exists blocks. split; trivial.
    apply in_map_iff. now exists (sz', blocks).
  - intros q a I E. apply NB. unfold bound_blocks.
    apply in_map_iff. now exists (q, a).
Qed.

Lemma reallocation_orphans_block_witness :
  dict_get string_dec "P1"
    (allocated_processes (snd (allocate "P1" 50 (init initial_blocks))))
    = Some {| block := "Block1"; size := 50 |} /\
  dict_get Z.eq_dec 100
    (memory_blocks (snd (allocate "P1" 50 (init initial_blocks))))
    = Some ["Block3"; "Block4"] /\
  free_occurrences "Block1"
    (snd (allocate "P1" 100 (snd (allocate "P1" 50 (init initial_blocks)))))
    = 0%nat /\
  bound_occurrences "Block1"
    (snd (allocate "P1" 100 (snd (allocate "P1" 50 (init initial_blocks)))))
    = 0%nat.
Proof.
  split; [reflexivity|]. split; [reflexivity|].
  destruct (reallocation_orphans_block
              (snd (allocate "P1" 50 (init initial_blocks))) "P1" 100
              {| block := "Block1"; size := 50 |} "Block3" ["Block4"]
              eq_refl eq_refl eq_refl) as (_ & _ & _ & _ & _ & _ & F & B).
  split; [exact F | exact B].
Defined.

(** C6 as stated fails in a state where the held name is also listed as
    free: class 50 is seeded with the name B twice, P1 allocates twice at
    size 50, and after the second call B is in the binding of P1. *)
Lemma duplicate_name_is_not_orphaned :
  let self := snd (allocate "P1" 50 (init [(50, ["B"; "B"])])) in
  let self' := snd (allocate "P1" 50 self) in
  dict_get string_dec "P1" (allocated_processes self)
    = Some {| block := "B"; size := 50 |} /\
  dict_get Z.eq_dec 50 (memory_blocks self) = Some ["B"] /\
  fst (allocate "P1" 50 self) = (true, "Process P1 allocated to B (50 KB).") /\
  allocated_processes self' = [("P1", {| block := "B"; size := 50 |})] /\
  In "B" (bound_blocks self').
Proof. repeat split; try reflexivity. cbn. now left. Qed.

(** ** Allocate, then release *)

(** C7, as the code has it.  When [allocate] for [p] at size [s]
    succeeds and binds [p] to block [b], the [deallocate] of [p] that
    follows succeeds with the message naming [b] and [s] (the process id
    is not in it), removes the binding and puts [b] at the end of the
    free sequence of class [s]; the next [allocate] at size [s], for any
    process, succeeds with the front of that sequence, so it hands out
    [b] exactly when [b] is then the oldest entry. *)
Theorem allocate_then_deallocate
  (self : QuickFit) (p : string) (s : Z) (b : string)
  (Hok : fst (fst (allocate p s self)) = true)
  (Hb : dict_get string_dec p (allocated_processes (snd (allocate p s self)))
        = Some {| block := b; size := s |}) :
  let bound := snd (allocate p s self) in
  let released := deallocate p bound in
  fst released = (true, deallocate_success b s) /\
  mentions b (snd (fst released)) = true /\
  mentions (str_int s) (snd (fst released)) = true /\
  dict_get string_dec p (allocated_processes (snd released)) = None /\
  exists rest,
    dict_get Z.eq_dec s (memory_blocks self) = Some (b :: rest) /\
    dict_get Z.eq_dec s (memory_blocks bound) = Some rest /\
    dict_get Z.eq_dec s (memory_blocks (snd released))
      = Some (rest ++ [b])%list /\
    forall p2,
      let again := allocate p2 s (snd released) in
      fst (fst again) = true /\
      (exists oldest,
         hd_error (rest ++ [b]) = Some oldest /\
         fst again = (true, allocate_success p2 oldest s) /\
         dict_get string_dec p2 (allocated_processes (snd again))
           = Some {| block := oldest; size := s |}) /\
      (dict_get string_dec p2 (allocated_processes (snd again))
         = Some {| block := b; size := s |}
       <-> hd_error (rest ++ [b]) = Some b).
Proof.
  intros bound released. subst bound released.
  destruct (allocate_cases p s self) as [(b0 & rest & G)|F];
    [|rewrite F in Hok; discriminate].
  pose proof (allocate_takes_front p s self b0 rest G) as (Pool & Bind).
  rewrite Bind in Hb. injection Hb as ->.
  pose proof (deallocate_pool _ _ _ Bind) as P. cbn [size block] in P.
  rewrite Pool in P.
  pose proof (deallocate_unbinds p (snd (allocate p s self))) as U.
  rewrite (deallocate_hit _ _ _ Bind) in *. cbn [fst snd size block] in *.
  destruct (deallocate_success_mentions b s) as (Mb & Ms).
  repeat split; trivial.
  exists rest. repeat split; trivial.
  - destruct (rest ++ [b])%list as [|o pool] eqn:E;
      [now destruct rest|].
    now rewrite (allocate_hit p2 _ _ _ _ P).
  - destruct (rest ++ [b])%list as [|o pool] eqn:E;
      [now destruct rest|].
    exists o. rewrite (allocate_hit p2 _ _ _ _ P). cbn.
    repeat split. apply dict_get_setitem_eq.
  - destruct (rest ++ [b])%list as [|o pool] eqn:E;
      [now destruct rest|].
    rewrite (allocate_hit p2 _ _ _ _ P). cbn.
    rewrite dict_get_setitem_eq. intros H. now injection H as ->.
  - destruct (rest ++ [b])%list as [|o pool] eqn:E;
      [now destruct rest|].
    rewrite (allocate_hit p2 _ _ _ _ P). cbn.
    rewrite dict_get_setitem_eq. intros H. now injection H as ->.
Qed.

Lemma allocate_then_deallocate_witness :
  fst (fst (allocate "P1" 200 (init initial_blocks))) = true /\
  dict_get string_dec "P1"
    (allocated_processes (snd (allocate "P1" 200 (init initial_blocks))))
    = Some {| block := "Block5"; size := 200 |} /\
  fst (deallocate "P1" (snd (allocate "P1" 200 (init initial_blocks))))
    = (true, "Block Block5 (200 KB) deallocated.").
Proof.
  split; [reflexivity|]. split; [reflexivity|].
  exact (proj1 (allocate_then_deallocate (init initial_blocks) "P1" 200
                  "Block5" eq_refl eq_refl)).
Defined.

(** C7 as stated fails where it has the release report [(b, s, p)]: P2
    is bound to Block3 by [allocate] at size 100, and the message of the
    [deallocate] that follows names Block3 and 100 and not P2. *)
Lemma release_message_omits_process :
  let bound := allocate "P2" 100 (init initial_blocks) in
  let released := deallocate "P2" (snd bound) in
  fst bound = (true, "Process P2 allocated to Block3 (100 KB).") /\
  fst released = (true, "Block Block3 (100 KB) deallocated.") /\
  mentions "Block3" (snd (fst released)) = true /\
  mentions "100" (snd (fst released)) = true /\
  mentions "P2" (snd (fst released)) = false.
Proof. repeat split; reflexivity. Qed.

(** ** What the report lists *)

Lemma creation_order_keys (calls : list call) (self : QuickFit) :
  no_rebind calls self = true ->
  creation_order calls self (keys (allocated_processes self))
    = keys (allocated_processes (run calls self)).
Proof.
  revert self. induction calls as [|c calls IH]; intros self R; simpl in *;
    trivial.
  apply andb_prop in R. destruct R as [R1 R2]. apply negb_true_iff in R1.
  rewrite <- (IH _ R2). f_equal. rewrite step_bound_keys.
  destruct c as [p sz|p]; unfold bound_after; cbn [rebinds] in *; trivial.
  destruct (fst (fst (allocate p sz self))); trivial.
  rewrite andb_true_r in R1. rewrite R1.
  rewrite notin_remove; trivial.
  intros I. apply dict_contains_keys with (dec := string_dec) in I. congruence.
Qed.

(** C9, as the code has it.  The text of [get_memory_state] is the
    heading, then for every item of [memory_blocks], in the order of the
    dictionary, the line with the size and all the names of its free
    sequence at that moment, in their order, between brackets and
    separated by a comma and a space (an empty sequence gives the empty
    brackets), then the second heading and one line for every binding in
    the order of [allocated_processes].  Along any calls the classes
    keep their order and a class added by [deallocate] goes last; from a
    seed the classes are those of the seed, in seed order, also when
    their sequence has become empty.  The bindings stand in the order in
    which their process ids entered the dictionary: a process newly
    bound goes last, one that allocates again while bound keeps its
    place with its new block, a release takes the process out; when no
    call allocates for a bound process, this is the order in which the
    bindings were made. *)
Theorem report_lists_classes_and_bindings :
  (forall (repr_str : string -> string) (self : QuickFit),
     fst (get_memory_state repr_str self) =
       ("Available Memory Blocks:" ++ newline)
       ++ lines
            (map (fun item : Z * list string =>
                    str_int (fst item) ++ " KB Blocks: "
                    ++ ("[" ++ String.concat ", " (map repr_str (snd item)) ++ "]")
                    ++ newline)
               (memory_blocks self))
       ++ (newline ++ "Allocated Processes:" ++ newline)
       ++ lines
            (map (fun item : string * allocation =>
                    "Process " ++ fst item ++ ": " ++ block (snd item)
                    ++ " (" ++ str_int (size (snd item)) ++ " KB)" ++ newline)
               (allocated_processes self))) /\
  (forall (seed : dict Z (list string)) (calls : list call),
     keys (memory_blocks (run calls (init seed))) = keys seed) /\
  (forall (self : QuickFit) (calls : list call),
     keys (memory_blocks (run calls self))
       = (keys (memory_blocks self) ++ created_along calls self)%list) /\
  (forall (self : QuickFit) (c : call),
     keys (allocated_processes (snd (step c self))) = bound_after c self) /\
  (forall (self : QuickFit) (calls : list call),
     no_rebind calls self = true ->
     keys (allocated_processes (run calls self))
       = creation_order calls self (keys (allocated_processes self))) /\
  fst (get_memory_state quote_plain (init initial_blocks)) =
    "Available Memory Blocks:" ++ newline
    ++ "50 KB Blocks: ['Block1', 'Block2']" ++ newline
    ++ "100 KB Blocks: ['Block3', 'Block4']" ++ newline
    ++ "200 KB Blocks: ['Block5']" ++ newline
    ++ newline ++ "Allocated Processes:" ++ newline /\
  (forall repr_str : string -> string,
     let self := run [Allocate "P1" 200; Allocate "P2" 100; Allocate "P1" 100]
                     (init initial_blocks) in
     fst (get_memory_state repr_str self) =
       "Available Memory Blocks:" ++ newline
       ++ "50 KB Blocks: [" ++ repr_str "Block1" ++ ", " ++ repr_str "Block2"
       ++ "]" ++ newline
       ++ "100 KB Blocks: []" ++ newline
       ++ "200 KB Blocks: []" ++ newline
       ++ newline ++ "Allocated Processes:" ++ newline
       ++ "Process P1: Block4 (100 KB)" ++ newline
       ++ "Process P2: Block3 (100 KB)" ++ newline).
Proof.
  split; [exact get_memory_state_text|].
  split.
  { intros seed calls. rewrite run_memory_keys.
    rewrite (created_along_known calls (init seed) (sizes_known_init seed)).
    apply app_nil_r. }
  split; [intros self calls; apply run_memory_keys|].
  split; [intros self c; apply step_bound_keys|].
  split; [intros self calls R; symmetry; now apply creation_order_keys|].
  split; [reflexivity|].
  intros repr_str self. subst self.
  rewrite get_memory_state_text. cbn [run step snd].
  cbv [init initial_blocks allocate]. cbn.
  unfold blocks_line, str_list. cbn.
  repeat (rewrite !string_append_assoc; cbn). reflexivity.
Qed.

(** C9 as stated fails for the order of the bindings: P1 is bound, then
    P2, then P1 allocates again.  The binding of P1 is now the newer one,
    and the report lists it before that of P2. *)
Lemma rebinding_breaks_binding_order :
  let calls := [Allocate "P1" 50; Allocate "P2" 50; Allocate "P1" 100] in
  let self := run calls (init initial_blocks) in
  outputs calls (init initial_blocks)
    = [(true, "Process P1 allocated to Block1 (50 KB).");
       (true, "Process P2 allocated to Block2 (50 KB).");
       (true, "Process P1 allocated to Block3 (100 KB).")] /\
  creation_order calls (init initial_blocks) [] = ["P2"; "P1"] /\
  keys (allocated_processes self) = ["P1"; "P2"] /\
  keys (allocated_processes self) <> creation_order calls (init initial_blocks) [] /\
  fst (get_memory_state quote_plain self) =
    "Available Memory Blocks:" ++ newline
    ++ "50 KB Blocks: []" ++ newline
    ++ "100 KB Blocks: ['Block4']" ++ newline
    ++ "200 KB Blocks: ['Block5']" ++ newline
    ++ newline ++ "Allocated Processes:" ++ newline
    ++ "Process P1: Block3 (100 KB)" ++ newline
    ++ "Process P2: Block2 (50 KB)" ++ newline.
Proof. repeat split; try reflexivity. discriminate. Qed.

(** ** Two boundary cases of the order *)

(** A process that allocates again while bound keeps its place in the
    listing, with the new block. *)
Example reallocation_keeps_place :
  allocated_processes
    (run [Allocate "P1" 50; Allocate "P2" 50; Allocate "P1" 100]
       (init initial_blocks))
  = [("P1", {| block := "Block3"; size := 100 |});
     ("P2", {| block := "Block2"; size := 50 |})].
Proof. reflexivity. Qed.

(** A binding whose size is not a key of [memory_blocks] (no sequence of
    calls on a seed leads there) is released into a new class, last. *)
Example release_creates_class :
  memory_blocks
    (snd (deallocate "P1"
            {| memory_blocks := [(50, ["Block1"])];
               allocated_processes :=
                 [("P1", {| block := "Block9"; size := 75 |})] |}))
  = [(50, ["Block1"]); (75, ["Block9"])].
Proof. reflexivity. Qed.

(** * Further properties of the allocator *)

(** ** Blocks stay in their size class *)

Lemma deallocate_other_pools (p : string) (self : QuickFit) (a : allocation)
      (sz : Z) :
  dict_get string_dec p (allocated_processes self) = Some a ->
  sz <> size a ->
  dict_get Z.eq_dec sz (memory_blocks (snd (deallocate p self)))
    = dict_get Z.eq_dec sz (memory_blocks self).
Proof.
  intros B N. rewrite (deallocate_hit _ _ _ B). cbn.
  destruct (dict_get Z.eq_dec (size a) (memory_blocks self));
    apply dict_get_setitem_ne; congruence.
Qed.

Lemma class_kept_init (seed : dict Z (list string)) : class_kept seed (init seed).
Proof.
  split; cbn.
  - intros sz blocks G. unfold seed_pool. rewrite G. apply incl_refl.
  - discriminate.
Qed.

Lemma class_kept_step (seed : dict Z (list string)) (c : call)
      (self : QuickFit) :
  class_kept seed self -> class_kept seed (snd (step c self)).
Proof.
  intros [Pools Binds]. destruct c as [p sz|p]; simpl.
  - destruct (allocate_cases p sz self) as [(b & rest & G)|F];
      [|rewrite F; now split].
    pose proof (Pools _ _ G) as I.
    rewrite (allocate_hit p _ _ _ _ G). split; cbn.
    + intros sz' blocks G'. destruct (Z.eq_dec sz sz') as [<-|N].
      * rewrite dict_get_setitem_eq in G'. injection G' as <-.
        intros x Ix. apply I. now right.
      * rewrite dict_get_setitem_ne in G' by assumption. now apply Pools.
    + intros p' a G'. destruct (string_dec p p') as [<-|N].
      * rewrite dict_get_setitem_eq in G'. injection G' as <-. cbn.
        apply I. now left.
      * rewrite dict_get_setitem_ne in G' by assumption. now apply Binds with p'.
  - destruct (dict_get string_dec p (allocated_processes self)) as [a|] eqn:B;
      [|rewrite (deallocate_miss _ _ B); now split].
    pose proof (Binds _ _ B) as I. split.
    + intros sz blocks G'. destruct (Z.eq_dec sz (size a)) as [->|N].
      * rewrite (deallocate_pool _ _ _ B) in G'. injection G' as <-.
        destruct (dict_get Z.eq_dec (size a) (memory_blocks self)) as [l|] eqn:G.
        -- apply incl_app; [now apply Pools|].
           intros x [<-|[]]. exact I.
        -- intros x [<-|[]]. exact I.
      * rewrite (deallocate_other_pools _ _ _ _ B N) in G'. now apply Pools.
    + rewrite (deallocate_hit _ _ _ B). cbn. intros p' a' G'.
      destruct (string_dec p p') as [<-|N].
      * rewrite dict_get_delitem_eq in G'. discriminate.
      * rewrite dict_get_delitem_ne in G' by assumption. now apply Binds with p'.
Qed.

Lemma class_kept_run (seed : dict Z (list string)) (calls : list call)
      (self : QuickFit) :
  class_kept seed self -> class_kept seed (run calls self).
Proof.
  revert self. induction calls as [|c calls IH]; intros self C; simpl; trivial.
  apply IH. now apply class_kept_step.
Qed.

(** X1. In a session started from a seed, the free sequence of a class
    holds only names the seed gave to that class, a process bound at a
    size holds a name the seed gave to that size, and a successful
    [allocate] at a size hands out a name the seed gave to that size:
    no block ever moves to another size class. *)
Theorem blocks_keep_their_class
  (seed : dict Z (list string)) (calls : list call) :
  let self := run calls (init seed) in
  (forall sz blocks b,
     dict_get Z.eq_dec sz (memory_blocks self) = Some blocks ->
     In b blocks -> In b (seed_pool seed sz)) /\
  (forall p a,
     dict_get string_dec p (allocated_processes self) = Some a ->
     In (size a) (keys seed) /\ In (block a) (seed_pool seed (size a))) /\
  (forall p sz,
     fst (fst (allocate p sz self)) = true ->
     exists b,
       fst (allocate p sz self) = (true, allocate_success p b sz) /\
       In b (seed_pool seed sz)).
Proof.
  intros self. subst self.
  destruct (class_kept_run seed calls (init seed) (class_kept_init seed))
    as [Pools Binds].
  split; [|split].
  - intros sz blocks b G I. now apply (Pools _ _ G).
  - intros p a G. pose proof (Binds _ _ G) as I. split; trivial.
    unfold seed_pool in I.
    destruct (dict_get Z.eq_dec (size a) seed) eqn:S; [|destruct I].
    apply dict_get_Some_In in S. unfold keys.
    apply in_map_iff. now exists (size a, l).
  - intros p sz S.
    destruct (allocate_cases p sz (run calls (init seed)))
      as [(b & rest & G)|F]; [|rewrite F in S; discriminate].
    exists b. rewrite (allocate_hit p _ _ _ _ G). split; trivial.
    apply (Pools _ _ G). now left.
Qed.

(** X2. A size to which the seed gives no block, be it absent from the
    seed or seeded with an empty list, can never be allocated: after any
    calls a request at that size fails and changes nothing. *)
Theorem empty_class_never_allocates
  (seed : dict Z (list string)) (sz : Z)
  (Hempty : seed_pool seed sz = [])
  (calls : list call) (p : string) :
  allocate p sz (run calls (init seed))
    = ((false, allocate_failure p sz), run calls (init seed)).
Proof.
  destruct (allocate_cases p sz (run calls (init seed)))
    as [(b & rest & G)|F]; trivial.
  destruct (class_kept_run seed calls (init seed) (class_kept_init seed))
    as [Pools _].
  pose proof (Pools _ _ G b (or_introl eq_refl)) as I.
  rewrite Hempty in I. destruct I.
Qed.

Lemma empty_class_never_allocates_witness :
  seed_pool ((75, []) :: initial_blocks) 75 = [] /\
  seed_pool ((75, []) :: initial_blocks) 999 = [] /\
  allocate "P3" 75
    (run [Allocate "P1" 50; Deallocate "P1"] (init ((75, []) :: initial_blocks)))
  = ((false, "No exact block available for Process P3 requiring 75 KB."),
     run [Allocate "P1" 50; Deallocate "P1"] (init ((75, []) :: initial_blocks))).
Proof.
  split; [reflexivity|]. split; [reflexivity|].
  exact (empty_class_never_allocates ((75, []) :: initial_blocks) 75 eq_refl
           [Allocate "P1" 50; Deallocate "P1"] "P3").
Defined.

(** ** The classes of a session *)


(** X4. A session started from a dictionary keeps both dictionaries
    with every key once: no size class and no process id is listed
    twice. *)
Theorem keys_stay_unique
  (seed : dict Z (list string)) (calls : list call)
  (Hseed : dict_wf seed) :
  dict_wf (memory_blocks (run calls (init seed))) /\
  dict_wf (allocated_processes (run calls (init seed))).
Proof.
  split.
  - unfold dict_wf. rewrite run_memory_keys.
    rewrite (created_along_known calls (init seed) (sizes_known_init seed)).
    now rewrite app_nil_r.
  - apply run_wf, dict_wf_init.
Qed.

Lemma initial_blocks_wf : dict_wf initial_blocks.
Proof.
  unfold dict_wf. cbn.
  repeat (apply NoDup_cons;
          [cbn; intros H; repeat destruct H as [H|H];
           try discriminate H; exact H|]).
  apply NoDup_nil.
Qed.

Lemma keys_stay_unique_witness :
  dict_wf initial_blocks /\
  dict_wf (allocated_processes
             (run [Allocate "P1" 50; Allocate "P1" 100; Deallocate "P1"]
                (init initial_blocks))).
Proof.
  split; [exact initial_blocks_wf|].
  exact (proj2 (keys_stay_unique initial_blocks
                  [Allocate "P1" 50; Allocate "P1" 100; Deallocate "P1"]
                  initial_blocks_wf)).
Defined.

(** ** Draining a class *)

Lemma outputs_all_fail (ps : list string) (sz : Z) (self : QuickFit) :
  dict_get Z.eq_dec sz (memory_blocks self) = Some [] ->
  outputs (allocate_all ps sz) self
    = map (fun p => (false, allocate_failure p sz)) ps /\
  run (allocate_all ps sz) self = self.
Proof.
  intros G. induction ps as [|p ps [IH1 IH2]]; simpl; [now split|].
  rewrite (allocate_miss p sz self (or_intror G)). cbn. now rewrite IH1, IH2.
Qed.

(** Requests at one size against a known pool. *)
Lemma drain_outputs
  (self : QuickFit) (sz : Z) (pool : list string) (ps : list string)
  (Hpool : dict_get Z.eq_dec sz (memory_blocks self) = Some pool) :
  outputs (allocate_all ps sz) self
    = (map (fun pb => (true, allocate_success (fst pb) (snd pb) sz))
         (combine ps pool)
       ++ map (fun p => (false, allocate_failure p sz))
            (skipn (List.length pool) ps))%list /\
  dict_get Z.eq_dec sz (memory_blocks (run (allocate_all ps sz) self))
    = Some (skipn (List.length ps) pool).
Proof.
  revert self pool Hpool.
  induction ps as [|p ps IH]; intros self pool Hpool.
  - cbn. now rewrite skipn_nil.
  - destruct pool as [|b rest].
    + destruct (outputs_all_fail (p :: ps) sz self Hpool) as [O R].
      rewrite O, R. now split.
    + destruct (allocate_takes_front p sz self b rest Hpool) as [G _].
      destruct (IH _ _ G) as [O R]. cbn [allocate_all map outputs run step].
      fold (allocate_all ps sz). rewrite O, R.
      rewrite (allocate_hit p _ _ _ _ Hpool). now split.
Qed.

(** X5. Requests at one size, one after the other, are served from the
    front of the free sequence of that class, oldest block first, for as
    long as it lasts; the requests after that fail; and what is left of
    the sequence is what was not handed out. *)
Theorem requests_drain_class_in_order
  (self : QuickFit) (sz : Z) (pool : list string) (ps : list string)
  (Hpool : dict_get Z.eq_dec sz (memory_blocks self) = Some pool) :
  outputs (allocate_all ps sz) self
    = (map (fun pb => (true, allocate_success (fst pb) (snd pb) sz))
         (combine ps pool)
       ++ map (fun p => (false, allocate_failure p sz))
            (skipn (List.length pool) ps))%list /\
  dict_get Z.eq_dec sz (memory_blocks (run (allocate_all ps sz) self))
    = Some (skipn (List.length ps) pool).
Proof. exact (drain_outputs self sz pool ps Hpool). Qed.

Lemma requests_drain_class_in_order_witness :
  dict_get Z.eq_dec 50 (memory_blocks (init initial_blocks))
    = Some ["Block1"; "Block2"] /\
  outputs (allocate_all ["P1"; "P2"; "P3"] 50) (init initial_blocks)
    = [(true, "Process P1 allocated to Block1 (50 KB).");
       (true, "Process P2 allocated to Block2 (50 KB).");
       (false, "No exact block available for Process P3 requiring 50 KB.")].
Proof.
  split; [reflexivity|].
  exact (proj1 (requests_drain_class_in_order (init initial_blocks) 50
                  ["Block1"; "Block2"] ["P1"; "P2"; "P3"] eq_refl)).
Defined.

(** ** Counting the blocks *)

Lemma step_blocks_count (c : call) (self : QuickFit) :
  dict_wf (allocated_processes self) ->
  (List.length (all_blocks (snd (step c self)))
   + (if rebinds c self then 1 else 0)
   = List.length (all_blocks self))%nat.
Proof.
  intros W. destruct (rebinds c self) eqn:R.
  - destruct c as [p sz|p]; simpl in *; [|discriminate].
    apply andb_prop in R. destruct R as [C S].
    destruct (allocate_cases p sz self) as [(b & rest & G)|F];
      [|rewrite F in S; discriminate].
    unfold dict_contains in C.
    destruct (dict_get string_dec p (allocated_processes self)) as [a|] eqn:B;
      [|discriminate].
    pose proof (Permutation_length (allocate_again_blocks p sz self b rest a G B))
      as L.
    cbn [List.length] in L. lia.
  - rewrite (Permutation_length (step_blocks_kept c self W R)). lia.
Qed.

(** In the dictionary of list values, after any calls on a seed: the
    free names, the bound names and the calls that allocated for a
    process already holding a block add up to the names of the seed. *)
Theorem blocks_are_counted
  (seed : dict Z (list string)) (calls : list call) :
  (List.length (free_blocks (run calls (init seed)))
   + List.length (bound_blocks (run calls (init seed)))
   + rebind_count calls (init seed)
   = List.length (seed_blocks seed))%nat /\
  (List.length (allocated_processes (run calls (init seed)))
   <= List.length (seed_blocks seed))%nat.
Proof.
  assert (C : forall calls self,
             dict_wf (allocated_processes self) ->
             (List.length (all_blocks (run calls self)) + rebind_count calls self
              = List.length (all_blocks self))%nat).
  { clear. induction calls as [|c calls IH]; intros self W; simpl; [lia|].
    pose proof (IH _ (step_wf c self W)) as E.
    pose proof (step_blocks_count c self W) as S. lia. }
  pose proof (C calls (init seed) (dict_wf_init seed)) as E.
  rewrite all_blocks_init in E. unfold all_blocks in E.
  rewrite length_app in E. split; [exact E|].
  unfold bound_blocks in E. rewrite length_map in E. lia.
Qed.

(** ** One call after the other *)

Section DictRewrites.

Context {K V : Type}.
Variable K_eq_dec : forall x y : K, {x = y} + {x <> y}.

Lemma dict_delitem_setitem_absent (k : K) (v : V) (d : dict K V) :
  dict_get K_eq_dec k d = None ->
  dict_delitem K_eq_dec k (dict_setitem K_eq_dec k v d) = d.
Proof.
  induction d as [|[k' v'] d IH]; simpl.
  - destruct (K_eq_dec k k); congruence.
  - destruct (K_eq_dec k k') as [E|N]; [discriminate|]. intros G. simpl.
    destruct (K_eq_dec k k'); [contradiction|]. now rewrite IH.
Qed.

Lemma dict_setitem_setitem (k : K) (v v' : V) (d : dict K V) :
  dict_setitem K_eq_dec k v (dict_setitem K_eq_dec k v' d)
    = dict_setitem K_eq_dec k v d.
Proof.
  induction d as [|[k0 v0] d IH]; simpl.
  - destruct (K_eq_dec k k); congruence.
  - destruct (K_eq_dec k k0) as [E|N]; simpl.
    + destruct (K_eq_dec k k); congruence.
    + destruct (K_eq_dec k k0); [contradiction|]. now rewrite IH.
Qed.

Lemma dict_setitem_same (k : K) (v : V) (d : dict K V) :
  dict_get K_eq_dec k d = Some v -> dict_setitem K_eq_dec k v d = d.
Proof.
  induction d as [|[k0 v0] d IH]; simpl; [discriminate|].
  destruct (K_eq_dec k k0) as [E|N]; intros G.
  - congruence.
  - now rewrite IH.
Qed.

End DictRewrites.

(** X8. A process that holds the one block of a class whose free
    sequence is empty releases it and asks for that size again: it gets
    the same block back, the pools are exactly as before the two calls,
    and every process has the binding it had; in the order of the
    bindings the process is now last. *)
Theorem deallocate_allocate_restores
  (self : QuickFit) (p : string) (a : allocation)
  (Hbound : dict_get string_dec p (allocated_processes self) = Some a)
  (Hempty : dict_get Z.eq_dec (size a) (memory_blocks self) = Some []) :
  let released := snd (deallocate p self) in
  fst (allocate p (size a) released)
    = (true, allocate_success p (block a) (size a)) /\
  memory_blocks (snd (allocate p (size a) released)) = memory_blocks self /\
  (forall q,
     dict_get string_dec q (allocated_processes (snd (allocate p (size a) released)))
     = dict_get string_dec q (allocated_processes self)) /\
  keys (allocated_processes (snd (allocate p (size a) released)))
    = (remove string_dec p (keys (allocated_processes self)) ++ [p])%list.
Proof.
  intros released. subst released.
  pose proof (deallocate_pool _ _ _ Hbound) as P. rewrite Hempty in P.
  cbn [app] in P.
  rewrite (allocate_hit p _ _ _ _ P). cbn [fst snd memory_blocks allocated_processes].
  split; [reflexivity|]. split; [|split].
  - rewrite (deallocate_hit _ _ _ Hbound). cbn. rewrite Hempty.
    rewrite dict_setitem_setitem. now apply dict_setitem_same.
  - intros q. rewrite (deallocate_hit _ _ _ Hbound). cbn.
    destruct (string_dec p q) as [<-|N].
    + rewrite dict_get_setitem_eq, Hbound. now destruct a.
    + rewrite dict_get_setitem_ne, dict_get_delitem_ne by assumption.
      reflexivity.
  - rewrite keys_setitem_absent by apply deallocate_unbinds.
    rewrite (deallocate_hit _ _ _ Hbound). cbn [snd allocated_processes].
    now rewrite keys_delitem.
Qed.

Lemma deallocate_allocate_restores_witness :
  dict_get string_dec "P1"
    (allocated_processes (snd (allocate "P1" 200 (init initial_blocks))))
    = Some {| block := "Block5"; size := 200 |} /\
  dict_get Z.eq_dec 200
    (memory_blocks (snd (allocate "P1" 200 (init initial_blocks)))) = Some [] /\
  fst (allocate "P1" 200
         (snd (deallocate "P1" (snd (allocate "P1" 200 (init initial_blocks))))))
    = (true, "Process P1 allocated to Block5 (200 KB).").
Proof.
  split; [reflexivity|]. split; [reflexivity|].
  exact (proj1 (deallocate_allocate_restores
                  (snd (allocate "P1" 200 (init initial_blocks))) "P1"
                  {| block := "Block5"; size := 200 |} eq_refl eq_refl)).
Defined.

(** * The window *)

Lemma run_app (calls calls' : list call) (self : QuickFit) :
  run (calls ++ calls') self = run calls' (run calls self).
Proof.
  revert self. induction calls as [|c calls IH]; intros self; simpl; trivial.
Qed.

(** From distinctly named blocks, the names stay distinct and are the
    seed's. *)
Lemma run_blocks_distinct (seed : dict Z (list string)) (calls : list call) :
  NoDup (seed_blocks seed) ->
  NoDup (all_blocks (run calls (init seed))) /\
  incl (all_blocks (run calls (init seed))) (seed_blocks seed).
Proof.
  intros D.
  pose proof (fun x => run_blocks_bounded calls (init seed) x
                         (dict_wf_init seed)) as Le.
  rewrite all_blocks_init in Le.
  rewrite (NoDup_count_occ string_dec) in D. split.
  - apply (NoDup_count_occ string_dec). intros x.
    specialize (Le x). specialize (D x). lia.
  - intros x I. apply (count_occ_In string_dec) in I.
    apply (count_occ_In string_dec). specialize (Le x). lia.
Qed.

Section WindowFacts.

Variable repr_str : string -> string.
Variable int_of_str : string -> option Z.

Local Abbreviation refresh := (refresh_state repr_str).
Local Abbreviation handler := (handle repr_str int_of_str).
Local Abbreviation up_to_date := (up_to_date repr_str).

Lemma refresh_state_spec (gui : QuickFitGUI) :
  quick_fit (refresh gui) = quick_fit gui /\
  process_id_entry (refresh gui) = process_id_entry gui /\
  size_entry (refresh gui) = size_entry gui /\
  up_to_date (refresh gui).
Proof. repeat split. Qed.

Lemma handle_quick_fit (e : event) (gui : QuickFitGUI) :
  quick_fit (snd (handler e gui))
    = run (passed_call int_of_str e gui) (quick_fit gui).
Proof.
  destruct e as [text|text| |[p|]|]; cbn; trivial.
  - unfold allocate_memory.
    destruct (is_empty (process_id_entry gui) || is_empty (size_entry gui));
      trivial.
    destruct (int_of_str (size_entry gui)) as [sz|]; trivial.
    cbn. now destruct (allocate (process_id_entry gui) sz (quick_fit gui))
      as [[success message] quick_fit'].
  - destruct (is_empty p); trivial.
    cbn. now destruct (deallocate p (quick_fit gui))
      as [[success message] quick_fit'].
Qed.

Lemma handle_up_to_date (e : event) (gui : QuickFitGUI) :
  up_to_date gui -> up_to_date (snd (handler e gui)).
Proof.
  intros U. destruct e as [text|text| |[p|]|]; cbn; trivial.
  - unfold allocate_memory.
    destruct (is_empty (process_id_entry gui) || is_empty (size_entry gui));
      trivial.
    destruct (int_of_str (size_entry gui)) as [sz|]; trivial.
    now destruct (allocate (process_id_entry gui) sz (quick_fit gui))
      as [[success message] quick_fit'].
  - destruct (is_empty p); trivial.
    now destruct (deallocate p (quick_fit gui))
      as [[success message] quick_fit'].
  - reflexivity.
Qed.

Lemma session_up_to_date (events : list event) (gui : QuickFitGUI) :
  up_to_date gui -> up_to_date (session repr_str int_of_str events gui).
Proof.
  revert gui. induction events as [|e events IH]; intros gui U; simpl; trivial.
  apply IH. now apply handle_up_to_date.
Qed.

Lemma session_quick_fit (events : list event) (gui : QuickFitGUI) :
  quick_fit (session repr_str int_of_str events gui)
    = run (passed_calls repr_str int_of_str events gui) (quick_fit gui).
Proof.
  revert gui. induction events as [|e events IH]; intros gui; simpl; trivial.
  now rewrite IH, run_app, handle_quick_fit.
Qed.

End WindowFacts.

(** X9. Whatever the user does after the window has opened (filling the
    entries, pressing the buttons, answering or cancelling the dialog),
    the state display shows the report of the allocator as it then is:
    every handler that changes the allocator refreshes the display. *)
Theorem display_is_never_stale
  (repr_str : string -> string) (int_of_str : string -> option Z)
  (events : list event) :
  let gui := session repr_str int_of_str events (gui_init repr_str) in
  state_text gui = fst (get_memory_state repr_str (quick_fit gui)).
Proof.
  intros gui. subst gui.
  apply (session_up_to_date repr_str int_of_str events (gui_init repr_str)).
  reflexivity.
Qed.

(** X10. The allocator of the window is the one of [initial_blocks]
    after the calls that the handlers let through, in their order.  So
    in the window the size classes are always 50, 100 and 200, the block
    names that are free or bound are pairwise distinct, and they are
    among Block1 to Block5. *)
Theorem window_runs_the_allocator
  (repr_str : string -> string) (int_of_str : string -> option Z)
  (events : list event) :
  let gui := session repr_str int_of_str events (gui_init repr_str) in
  quick_fit gui
    = run (passed_calls repr_str int_of_str events (gui_init repr_str))
        (init initial_blocks) /\
  keys (memory_blocks (quick_fit gui)) = [50; 100; 200] /\
  NoDup (all_blocks (quick_fit gui)) /\
  (forall b, In b (all_blocks (quick_fit gui)) ->
             In b ["Block1"; "Block2"; "Block3"; "Block4"; "Block5"]).
Proof.
  intros gui. subst gui. rewrite session_quick_fit.
  change (quick_fit (gui_init repr_str)) with (init initial_blocks).
  set (calls := passed_calls repr_str int_of_str events (gui_init repr_str)).
  destruct (run_blocks_distinct initial_blocks calls initial_blocks_distinct)
    as [D I].
  split; [reflexivity|]. split; [|split; [exact D | exact I]].
  rewrite run_memory_keys.
  rewrite (created_along_known calls _ (sizes_known_init initial_blocks)).
  reflexivity.
Qed.

(** X11. A press on Allocate with both entries filled and a size that
    [int] reads passes the request to the allocator, shows one box (the
    information box on success, the warning box on failure, with the
    message of [allocate]), empties both entries and refreshes the
    display; a second press right after it is refused with the error box
    and changes nothing. *)
Theorem allocate_button_twice
  (repr_str : string -> string) (int_of_str : string -> option Z)
  (gui : QuickFitGUI) (sz : Z)
  (Hid : is_empty (process_id_entry gui) = false)
  (Hsize : is_empty (size_entry gui) = false)
  (Hint : int_of_str (size_entry gui) = Some sz) :
  let result := allocate (process_id_entry gui) sz (quick_fit gui) in
  let once := allocate_memory repr_str int_of_str gui in
  fst once
    = [if fst (fst result)
       then showinfo "Allocation Success" (snd (fst result))
       else showwarning "Allocation Failed" (snd (fst result))] /\
  quick_fit (snd once) = snd result /\
  process_id_entry (snd once) = EmptyString /\
  size_entry (snd once) = EmptyString /\
  state_text (snd once) = fst (get_memory_state repr_str (snd result)) /\
  allocate_memory repr_str int_of_str (snd once)
    = ([showerror "Error" "Please enter both Process ID and Memory Size"],
       snd once).
Proof.
  intros result once. subst result once.
  assert (E : allocate_memory repr_str int_of_str gui
              = ([if fst (fst (allocate (process_id_entry gui) sz (quick_fit gui)))
                  then showinfo "Allocation Success"
                         (snd (fst (allocate (process_id_entry gui) sz
                                      (quick_fit gui))))
                  else showwarning "Allocation Failed"
                         (snd (fst (allocate (process_id_entry gui) sz
                                      (quick_fit gui))))],
                 refresh_state repr_str
                   {| quick_fit :=
                        snd (allocate (process_id_entry gui) sz (quick_fit gui));
                      process_id_entry := EmptyString;
                      size_entry := EmptyString;
                      state_text := state_text gui |})).
  { unfold allocate_memory. rewrite Hid, Hsize, Hint. cbn [orb].
    now destruct (allocate (process_id_entry gui) sz (quick_fit gui))
      as [[success message] quick_fit']. }
  rewrite E. cbn [fst snd]. repeat split.
Qed.

Lemma allocate_button_twice_witness :
  read_decimal "50" = Some 50 /\
  fst (allocate_memory (fun s => s) read_decimal
         {| quick_fit := init initial_blocks;
            process_id_entry := "P1";
            size_entry := "50";
            state_text := EmptyString |})
    = [showinfo "Allocation Success" "Process P1 allocated to Block1 (50 KB)."].
Proof.
  split; [reflexivity|].
  exact (proj1 (allocate_button_twice (fun s => s) read_decimal
                  {| quick_fit := init initial_blocks;
                     process_id_entry := "P1";
                     size_entry := "50";
                     state_text := EmptyString |} 50 eq_refl eq_refl eq_refl)).
Defined.

(** X12. In the window a request at a size other than 50, 100 and 200
    (zero and negative sizes included: the handler passes on whatever
    [int] reads) never allocates: the press shows the warning box with
    the no-exact-block message and the allocator stays as it is. *)
Theorem window_refuses_other_sizes
  (repr_str : string -> string) (int_of_str : string -> option Z)
  (events : list event) (sz : Z)
  (Hid : is_empty (process_id_entry
                     (session repr_str int_of_str events (gui_init repr_str)))
         = false)
  (Hsize : is_empty (size_entry
                       (session repr_str int_of_str events (gui_init repr_str)))
           = false)
  (Hint : int_of_str (size_entry
                        (session repr_str int_of_str events (gui_init repr_str)))
          = Some sz)
  (Hother : sz <> 50 /\ sz <> 100 /\ sz <> 200) :
  let gui := session repr_str int_of_str events (gui_init repr_str) in
  fst (allocate_memory repr_str int_of_str gui)
    = [showwarning "Allocation Failed"
         (allocate_failure (process_id_entry gui) sz)] /\
  quick_fit (snd (allocate_memory repr_str int_of_str gui)) = quick_fit gui.
Proof.
  intros gui. subst gui.
  set (gui := session repr_str int_of_str events (gui_init repr_str)) in *.
  assert (F : allocate (process_id_entry gui) sz (quick_fit gui)
              = ((false, allocate_failure (process_id_entry gui) sz),
                 quick_fit gui)).
  { apply allocate_miss. left. apply dict_get_None_keys.
    unfold gui. rewrite session_quick_fit.
    change (quick_fit (gui_init repr_str)) with (init initial_blocks).
    rewrite run_memory_keys.
    rewrite (created_along_known _ _ (sizes_known_init initial_blocks)).
    cbn. intros [E|[E|[E|[]]]]; symmetry in E; tauto. }
  unfold allocate_memory. rewrite Hid, Hsize, Hint, F. cbn [orb]. now split.
Qed.

Lemma window_refuses_other_sizes_witness :
  read_decimal "-5" = Some (-5) /\
  fst (allocate_memory (fun s => s) read_decimal
         (session (fun s => s) read_decimal
            [EnterProcessId "P1"; EnterSize "-5"] (gui_init (fun s => s))))
    = [showwarning "Allocation Failed"
         "No exact block available for Process P1 requiring -5 KB."].
Proof.
  split; [reflexivity|].
  refine (proj1 (window_refuses_other_sizes (fun s => s) read_decimal
                   [EnterProcessId "P1"; EnterSize "-5"] (-5)
                   eq_refl eq_refl eq_refl _)).
  repeat split; discriminate.
Defined.

(** X13. The Deallocate dialog changes the allocator only when the
    answer names a process that holds a block: a cancelled dialog and an
    empty answer do nothing at all (no box, no refresh), and the name of
    a process without a binding gets the warning box with the
    no-allocation message while the allocator stays as it is. *)
Theorem deallocate_dialog_without_binding
  (repr_str : string -> string) (int_of_str : string -> option Z)
  (gui : QuickFitGUI) :
  deallocate_memory repr_str None gui = ([], gui) /\
  deallocate_memory repr_str (Some EmptyString) gui = ([], gui) /\
  (forall p,
     is_empty p = false ->
     dict_get string_dec p (allocated_processes (quick_fit gui)) = None ->
     fst (deallocate_memory repr_str (Some p) gui)
       = [showwarning "Deallocation Failed" (deallocate_failure p)] /\
     quick_fit (snd (deallocate_memory repr_str (Some p) gui)) = quick_fit gui) /\
  (forall answer,
     quick_fit (snd (deallocate_memory repr_str answer gui)) <> quick_fit gui ->
     exists p a,
       answer = Some p /\
       dict_get string_dec p (allocated_processes (quick_fit gui)) = Some a).
Proof.
  split; [reflexivity|]. split; [reflexivity|]. split.
  - intros p E N. unfold deallocate_memory. rewrite E.
    rewrite (deallocate_miss p _ N). now split.
  - intros [p|] D; [|now contradiction D].
    unfold deallocate_memory in D.
    destruct (is_empty p); [now contradiction D|].
    destruct (dict_get string_dec p (allocated_processes (quick_fit gui)))
      as [a|] eqn:B; [now exists p, a|].
    rewrite (deallocate_miss p _ B) in D. now contradiction D.
Qed.

(** ** A released block is reused last *)

(** X14. After a process releases its block, the requests at that size
    get the blocks that were free before the release, oldest first, and
    only then the released block; later requests fail. *)
Theorem released_block_is_reused_last
  (self : QuickFit) (p : string) (a : allocation) (pool : list string)
  (ps : list string)
  (Hbound : dict_get string_dec p (allocated_processes self) = Some a)
  (Hpool : dict_get Z.eq_dec (size a) (memory_blocks self) = Some pool) :
  outputs (allocate_all ps (size a)) (snd (deallocate p self))
    = (map (fun pb => (true, allocate_success (fst pb) (snd pb) (size a)))
         (combine ps (pool ++ [block a]))
       ++ map (fun q => (false, allocate_failure q (size a)))
            (skipn (S (List.length pool)) ps))%list.
Proof.
  pose proof (deallocate_pool _ _ _ Hbound) as P. rewrite Hpool in P.
  destruct (drain_outputs _ _ _ ps P) as [O _]. rewrite O.
  rewrite length_app. cbn [List.length]. now rewrite Nat.add_1_r.
Qed.

Lemma released_block_is_reused_last_witness :
  dict_get string_dec "P1"
    (allocated_processes (snd (allocate "P1" 50 (init initial_blocks))))
    = Some {| block := "Block1"; size := 50 |} /\
  dict_get Z.eq_dec 50
    (memory_blocks (snd (allocate "P1" 50 (init initial_blocks))))
    = Some ["Block2"] /\
  outputs (allocate_all ["P2"; "P3"; "P4"] 50)
    (snd (deallocate "P1" (snd (allocate "P1" 50 (init initial_blocks)))))
    = [(true, "Process P2 allocated to Block2 (50 KB).");
       (true, "Process P3 allocated to Block1 (50 KB).");
       (false, "No exact block available for Process P4 requiring 50 KB.")].
Proof.
  split; [reflexivity|]. split; [reflexivity|].
  exact (released_block_is_reused_last
           (snd (allocate "P1" 50 (init initial_blocks))) "P1"
           {| block := "Block1"; size := 50 |} ["Block2"]
           ["P2"; "P3"; "P4"] eq_refl eq_refl).
Defined.

(** * The list objects *)

(** ** The heap *)

Lemma deref_assign_eq (h : Objects.heap) (r : nat) (v : list string) :
  (r < List.length h)%nat -> Objects.deref (Objects.assign h r v) r = v.
Proof.
  revert r. induction h as [|x h IH]; intros [|r] L; cbn in *; try lia; trivial.
  apply IH. lia.
Qed.

Lemma deref_assign_ne (h : Objects.heap) (r r' : nat) (v : list string) :
  r <> r' -> Objects.deref (Objects.assign h r v) r' = Objects.deref h r'.
Proof.
  revert r r'. induction h as [|x h IH]; intros [|r] [|r'] N; cbn; trivial;
    try congruence.
  apply IH. congruence.
Qed.

Lemma length_assign (h : Objects.heap) (r : nat) (v : list string) :
  List.length (Objects.assign h r v) = List.length h.
Proof.
  revert r. induction h as [|x h IH]; intros [|r]; cbn; trivial.
  now rewrite IH.
Qed.

Lemma assign_deref (h : Objects.heap) (r : nat) :
  Objects.assign h r (Objects.deref h r) = h.
Proof.
  revert r. induction h as [|x h IH]; intros [|r]; cbn; trivial.
  f_equal. apply IH.
Qed.

Lemma assign_assign (h : Objects.heap) (r : nat) (v w : list string) :
  Objects.assign (Objects.assign h r v) r w = Objects.assign h r w.
Proof.
  revert r. induction h as [|x h IH]; intros [|r]; cbn; trivial.
  now rewrite IH.
Qed.

(** A reference to a list that is not empty is to an object of the heap. *)
Lemma deref_nonempty (h : Objects.heap) (r : nat) (b : string)
      (rest : list string) :
  Objects.deref h r = b :: rest -> (r < List.length h)%nat.
Proof.
  intros D. destruct (Nat.lt_ge_cases r (List.length h)) as [L|G]; trivial.
  unfold Objects.deref in D. rewrite nth_overflow in D by assumption.
  discriminate.
Qed.




Lemma valid_reference (self : Objects.QuickFit) (sz : Z) (r : nat) :
  Objects.valid self ->
  dict_get Z.eq_dec sz (Objects.memory_blocks self) = Some r ->
  (r < List.length (Objects.objects self))%nat.
Proof.
  intros V G. apply dict_get_Some_In in G.
  unfold Objects.valid in V. rewrite Forall_forall in V. now apply V in G.
Qed.

(** ** One call on the list objects *)

Lemma objects_allocate_hit (p : string) (sz : Z) (self : Objects.QuickFit)
      (r : nat) (b : string) (rest : list string) :
  dict_get Z.eq_dec sz (Objects.memory_blocks self) = Some r ->
  Objects.deref (Objects.objects self) r = b :: rest ->
  Objects.allocate p sz self =
    ((true, allocate_success p b sz),
     {| Objects.objects := Objects.assign (Objects.objects self) r rest;
        Objects.memory_blocks := Objects.memory_blocks self;
        Objects.allocated_processes :=
          dict_setitem string_dec p {| block := b; size := sz |}
            (Objects.allocated_processes self) |}).
Proof. intros G D. unfold Objects.allocate. now rewrite G, D. Qed.

Lemma objects_deallocate_hit (p : string) (self : Objects.QuickFit)
      (a : allocation) :
  dict_get string_dec p (Objects.allocated_processes self) = Some a ->
  Objects.deallocate p self =
    ((true, deallocate_success (block a) (size a)),
     match dict_get Z.eq_dec (size a) (Objects.memory_blocks self) with
     | Some r =>
         {| Objects.objects :=
              Objects.assign (Objects.objects self) r
                (Objects.deref (Objects.objects self) r ++ [block a])%list;
            Objects.memory_blocks := Objects.memory_blocks self;
            Objects.allocated_processes :=
              dict_delitem string_dec p (Objects.allocated_processes self) |}
     | None =>
         {| Objects.objects := (Objects.objects self ++ [[block a]])%list;
            Objects.memory_blocks :=
              dict_setitem Z.eq_dec (size a)
                (List.length (Objects.objects self))
                (Objects.memory_blocks self);
            Objects.allocated_processes :=
              dict_delitem string_dec p (Objects.allocated_processes self) |}
     end).
Proof. intros G. unfold Objects.deallocate. now rewrite G. Qed.


(** The GUI seed as list objects: one list for each size. *)
Example initial_objects_separate :
  Objects.valid
    (Objects.init [["Block1"; "Block2"]; ["Block3"; "Block4"]; ["Block5"]]
       [(50, 0%nat); (100, 1%nat); (200, 2%nat)]) /\
  Objects.separate
    (Objects.init [["Block1"; "Block2"]; ["Block3"; "Block4"]; ["Block5"]]
       [(50, 0%nat); (100, 1%nat); (200, 2%nat)]) /\
  view (Objects.init [["Block1"; "Block2"]; ["Block3"; "Block4"]; ["Block5"]]
          [(50, 0%nat); (100, 1%nat); (200, 2%nat)])
    = init initial_blocks.
Proof.
  split; [|split; [|reflexivity]].
  - unfold Objects.valid. cbn. repeat constructor.
  - unfold Objects.separate. cbn.
    repeat (apply NoDup_cons;
            [cbn; intros H; repeat destruct H as [H|H];
             try discriminate H; exact H|]).
    apply NoDup_nil.
Qed.



(** ** Separate lists: the objects and the values agree *)

Lemma view_get (self : Objects.QuickFit) (sz : Z) :
  dict_get Z.eq_dec sz (memory_blocks (view self)) = Objects.pool sz self.
Proof.
  unfold Objects.pool, view. cbn.
  induction (Objects.memory_blocks self) as [|[k r] d IH]; cbn; trivial.
  destruct (Z.eq_dec sz k); trivial.
Qed.

Lemma view_assign (h : Objects.heap) (d : dict Z nat) (sz : Z) (r : nat)
      (v : list string) :
  NoDup (map snd d) -> dict_get Z.eq_dec sz d = Some r ->
  (r < List.length h)%nat ->
  map (fun item : Z * nat =>
         (fst item, Objects.deref (Objects.assign h r v) (snd item))) d
  = dict_setitem Z.eq_dec sz v
      (map (fun item : Z * nat => (fst item, Objects.deref h (snd item))) d).
Proof.
  intros N G L. induction d as [|[k r0] d IH]; [discriminate|].
  inversion N as [|? ? NI N']; subst. cbn in *.
  destruct (Z.eq_dec sz k) as [->|Nk].
  - injection G as ->. rewrite deref_assign_eq by assumption. f_equal.
    apply map_ext_in. intros [k' r'] I. cbn.
    rewrite deref_assign_ne; trivial.
    intros ->. apply NI. apply in_map_iff. now exists (k', r').
  - rewrite IH by assumption. f_equal.
    rewrite deref_assign_ne; trivial.
    intros ->. apply NI. apply dict_get_Some_In in G.
    apply in_map_iff. now exists (sz, r0).
Qed.

Lemma view_allocate (p : string) (sz : Z) (self : Objects.QuickFit) :
  Objects.separate self ->
  fst (Objects.allocate p sz self) = fst (allocate p sz (view self)) /\
  view (snd (Objects.allocate p sz self)) = snd (allocate p sz (view self)).
Proof.
  intros S. unfold allocate. rewrite view_get.
  unfold Objects.allocate, Objects.pool.
  destruct (dict_get Z.eq_dec sz (Objects.memory_blocks self)) as [r|] eqn:G;
    cbn; [|now split].
  destruct (Objects.deref (Objects.objects self) r) as [|b rest] eqn:D;
    cbn; [now split|].
  split; trivial. unfold view. cbn. f_equal.
  apply view_assign; trivial. now apply deref_nonempty with b rest.
Qed.

Lemma view_deallocate (p : string) (self : Objects.QuickFit) :
  Objects.valid self -> Objects.separate self ->
  fst (Objects.deallocate p self) = fst (deallocate p (view self)) /\
  view (snd (Objects.deallocate p self)) = snd (deallocate p (view self)).
Proof.
  intros V S. unfold deallocate, Objects.deallocate.
  change (allocated_processes (view self))
    with (Objects.allocated_processes self).
  destruct (dict_get string_dec p (Objects.allocated_processes self))
    as [a|]; [|now split].
  cbn [fst snd]. split; trivial. rewrite view_get. unfold Objects.pool.
  destruct (dict_get Z.eq_dec (size a) (Objects.memory_blocks self))
    as [r|] eqn:G; cbn [option_map].
  - unfold view. cbn. f_equal.
    apply view_assign; trivial. now apply valid_reference with (size a).
  - unfold view. cbn. f_equal.
    rewrite (dict_setitem_absent _ _ _ _ G), map_app. cbn.
    rewrite nth_middle.
    assert (N : dict_get Z.eq_dec (size a) (memory_blocks (view self)) = None).
    { rewrite view_get. unfold Objects.pool. now rewrite G. }
    unfold view in N. cbn [memory_blocks] in N.
    rewrite (dict_setitem_absent _ _ _ _ N).
    f_equal. apply map_ext_in. intros [k r] I. cbn. f_equal.
    apply app_nth1. unfold Objects.valid in V.
    rewrite Forall_forall in V. now apply V in I.
Qed.

Lemma objects_step_kept (c : call) (self : Objects.QuickFit) :
  Objects.valid self -> Objects.separate self ->
  Objects.valid (snd (Objects.step c self)) /\
  Objects.separate (snd (Objects.step c self)).
Proof.
  unfold Objects.valid, Objects.separate. intros V S.
  destruct c as [p sz|p]; cbn.
  - unfold Objects.allocate.
    destruct (dict_get Z.eq_dec sz (Objects.memory_blocks self)) as [r|];
      [|now split].
    destruct (Objects.deref (Objects.objects self) r); [now split|].
    cbn. now rewrite length_assign.
  - unfold Objects.deallocate.
    destruct (dict_get string_dec p (Objects.allocated_processes self))
      as [a|]; [|now split].
    cbn [snd].
    destruct (dict_get Z.eq_dec (size a) (Objects.memory_blocks self))
      as [r|] eqn:G; cbn.
    + now rewrite length_assign.
    + rewrite (dict_setitem_absent _ _ _ _ G), length_app, map_app. cbn.
      split.
      * apply Forall_app. split.
        -- eapply Forall_impl; [|exact V]. intros item L. cbn in L. lia.
        -- repeat constructor. cbn. lia.
      * apply NoDup_app; [assumption | repeat constructor; cbn; tauto|].
        intros x I [<-|[]]. apply in_map_iff in I.
        destruct I as (item & E & I). rewrite Forall_forall in V.
        apply V in I. lia.
Qed.

(** On separate lists a run on the objects is the run on the values. *)
Lemma view_run (calls : list call) (self : Objects.QuickFit) :
  Objects.valid self -> Objects.separate self ->
  view (Objects.run calls self) = run calls (view self) /\
  Objects.valid (Objects.run calls self) /\
  Objects.separate (Objects.run calls self).
Proof.
  revert self. induction calls as [|c calls IH]; intros self V S; cbn;
    [now repeat split|].
  destruct (objects_step_kept c self V S) as [V' S'].
  destruct (IH _ V' S') as (E & V'' & S''). repeat split; trivial.
  rewrite E. f_equal. destruct c as [p sz|p]; cbn.
  - now apply view_allocate.
  - now apply view_deallocate.
Qed.

(** X15. When every size holds a list object of its own, the allocator
    with the list objects and the allocator on list values go together
    along every sequence of calls: the state of the one spells out the
    state of the other, every call returns the same tuple in both, and
    the lists stay separate. *)
Theorem separate_lists_agree
  (self : Objects.QuickFit) (calls : list call)
  (Hvalid : Objects.valid self) (Hseparate : Objects.separate self) :
  view (Objects.run calls self) = run calls (view self) /\
  Objects.valid (Objects.run calls self) /\
  Objects.separate (Objects.run calls self) /\
  (forall c,
     fst (Objects.step c (Objects.run calls self))
       = fst (step c (run calls (view self)))).
Proof.
  destruct (view_run calls self Hvalid Hseparate) as (E & V & S).
  repeat split; trivial.
  intros c. rewrite <- E. destruct c as [p sz|p]; cbn.
  - now apply view_allocate.
  - now apply view_deallocate.
Qed.

Lemma separate_lists_agree_witness :
  view (Objects.run [Allocate "P1" 50; Allocate "P2" 100; Deallocate "P1"]
          (Objects.init
             [["Block1"; "Block2"]; ["Block3"; "Block4"]; ["Block5"]]
             [(50, 0%nat); (100, 1%nat); (200, 2%nat)]))
  = run [Allocate "P1" 50; Allocate "P2" 100; Deallocate "P1"]
      (init initial_blocks).
Proof.
  destruct initial_objects_separate as (V & S & _).
  exact (proj1 (separate_lists_agree _
                  [Allocate "P1" 50; Allocate "P2" 100; Deallocate "P1"] V S)).
Defined.

(** X6. Blocks are never made and are lost in one way only.  When the
    seed holds a separate list for every size, after any calls the
    number of free names plus the number of bound names plus the number
    of calls that allocated for a process already holding a block is the
    number of names in the seed, and there are never more bindings than
    seed names. *)
Theorem blocks_are_counted_separate
  (objects : Objects.heap) (refs : dict Z nat) (calls : list call)
  (Hvalid : Objects.valid (Objects.init objects refs))
  (Hseparate : Objects.separate (Objects.init objects refs)) :
  let seed := memory_blocks (view (Objects.init objects refs)) in
  let self := view (Objects.run calls (Objects.init objects refs)) in
  (List.length (free_blocks self) + List.length (bound_blocks self)
   + rebind_count calls (init seed)
   = List.length (seed_blocks seed))%nat /\
  (List.length (allocated_processes self) <= List.length (seed_blocks seed))%nat.
Proof.
  intros seed self. subst seed self.
  destruct (view_run calls _ Hvalid Hseparate) as (E & _). rewrite E.
  apply (blocks_are_counted
           (memory_blocks (view (Objects.init objects refs))) calls).
Qed.

Lemma blocks_are_counted_separate_witness :
  (List.length
     (free_blocks
        (view (Objects.run [Allocate "P1" 50%Z; Allocate "P1" 100%Z]
                 (Objects.init
                    [["Block1"; "Block2"]; ["Block3"; "Block4"]; ["Block5"]]
                    [(50%Z, 0%nat); (100%Z, 1%nat); (200%Z, 2%nat)]))))
   + List.length
       (bound_blocks
          (view (Objects.run [Allocate "P1" 50%Z; Allocate "P1" 100%Z]
                   (Objects.init
                      [["Block1"; "Block2"]; ["Block3"; "Block4"]; ["Block5"]]
                      [(50%Z, 0%nat); (100%Z, 1%nat); (200%Z, 2%nat)]))))
   + 1 = 5)%nat.
Proof.
  destruct initial_objects_separate as (V & S & _).
  exact (proj1 (blocks_are_counted_separate _ _
                  [Allocate "P1" 50%Z; Allocate "P1" 100%Z] V S)).
Defined.

(** X7. For a process that holds nothing, [allocate] at a size with a
    free block followed by [deallocate] leaves the bindings and the
    dictionary of classes exactly as they were and changes one list
    object: the block taken from its front is back at its end, under
    every size that holds this list; the classes that hold another list
    keep their free sequence.  When it was the only block of the list,
    the allocator is as before the two calls. *)
Theorem allocate_deallocate_rotates_list
  (self : Objects.QuickFit) (p : string) (sz : Z) (r : nat)
  (b : string) (rest : list string)
  (Hunbound : dict_get string_dec p (Objects.allocated_processes self) = None)
  (Hclass : dict_get Z.eq_dec sz (Objects.memory_blocks self) = Some r)
  (Hfree : Objects.deref (Objects.objects self) r = b :: rest) :
  let after := snd (Objects.deallocate p (snd (Objects.allocate p sz self))) in
  after
    = {| Objects.objects :=
           Objects.assign (Objects.objects self) r (rest ++ [b])%list;
         Objects.memory_blocks := Objects.memory_blocks self;
         Objects.allocated_processes := Objects.allocated_processes self |} /\
  (forall sz',
     dict_get Z.eq_dec sz' (Objects.memory_blocks self) = Some r ->
     Objects.pool sz' after = Some (rest ++ [b])%list) /\
  (forall sz' r',
     dict_get Z.eq_dec sz' (Objects.memory_blocks self) = Some r' ->
     r' <> r -> Objects.pool sz' after = Objects.pool sz' self) /\
  (rest = [] -> after = self).
Proof.
  intros after. subst after.
  pose proof (deref_nonempty _ _ _ _ Hfree) as L.
  assert (E : snd (Objects.deallocate p (snd (Objects.allocate p sz self)))
              = {| Objects.objects :=
                     Objects.assign (Objects.objects self) r (rest ++ [b])%list;
                   Objects.memory_blocks := Objects.memory_blocks self;
                   Objects.allocated_processes :=
                     Objects.allocated_processes self |}).
  { rewrite (objects_allocate_hit p _ _ _ _ _ Hclass Hfree). cbn [snd].
    rewrite (objects_deallocate_hit p _ {| block := b; size := sz |})
      by (cbn; apply dict_get_setitem_eq).
    cbn [snd size block Objects.objects Objects.memory_blocks
         Objects.allocated_processes].
    rewrite Hclass. rewrite deref_assign_eq by assumption.
    rewrite assign_assign. now rewrite dict_delitem_setitem_absent. }
  rewrite E. split; [reflexivity|]. split; [|split].
  - intros sz' G. unfold Objects.pool. cbn. rewrite G. cbn.
    now rewrite deref_assign_eq.
  - intros sz' r' G N. unfold Objects.pool. cbn. rewrite G. cbn.
    rewrite deref_assign_ne; congruence.
  - intros ->. cbn [app]. rewrite <- Hfree, assign_deref. now destruct self.
Qed.

Lemma allocate_deallocate_rotates_list_witness :
  snd (Objects.deallocate "P1"
         (snd (Objects.allocate "P1" 50
                 (Objects.init [["Block1"; "Block2"]; ["Block5"]]
                    [(50, 0%nat); (100, 0%nat); (200, 1%nat)]))))
  = Objects.init [["Block2"; "Block1"]; ["Block5"]]
      [(50, 0%nat); (100, 0%nat); (200, 1%nat)].
Proof.
  exact (proj1 (allocate_deallocate_rotates_list
                  (Objects.init [["Block1"; "Block2"]; ["Block5"]]
                     [(50, 0%nat); (100, 0%nat); (200, 1%nat)])
                  "P1" 50 0%nat "Block1" ["Block2"] eq_refl eq_refl eq_refl)).
Defined.
